(** * tlsfuzzer: scripts/test-invalid-client-hello-w-record-overflow.py

    A shallow embedding of the fuzzing script: the byte-level mutation
    engine, the conversation trees it builds, the scenario population,
    option handling, sampling, the execution loop with its
    expected-failure bookkeeping and the final report. *)

From stdpp Require Import gmap strings list fin_maps pretty.
From Stdlib Require Import ZArith NArith Lia.
From Stdlib Require Import Sorting.Mergesort Orders OrdersEx.

#[local] Set Warnings "-clear-no-such-hyp".

Open Scope string_scope.
Open Scope list_scope.
Open Scope nat_scope.

(** ** Python values shared by all parts *)

(** An exception object: its class name and [str(exception)]. *)
Record Exception := mkException { exc_class : string; exc_str : string }.

Definition ValueError (msg : string) : Exception := mkException "ValueError" msg.
Definition IndexError (msg : string) : Exception := mkException "IndexError" msg.
Definition AssertionError (msg : string) : Exception := mkException "AssertionError" msg.

(** How a statement ends: normally, by an exception of class [Exception],
    or by [sys.exit(code)] ([SystemExit] is not an [Exception], so
    [except Exception] does not catch it). *)
Inductive Result (A : Type) : Type :=
| Returned (a : A)
| Raised (e : Exception)
| Exited (code : Z).
Arguments Returned {A} a.
Arguments Raised {A} e.
Arguments Exited {A} code.

(** [range(a, b)] over non-negative integers. *)
Definition range (a b : nat) : list N := N.of_nat <$> seq a (b - a).

(** ["{0}".format(n)] for a non-negative integer. *)
Definition str (n : N) : string := pretty n.

(** [sub in s] on strings. *)
Fixpoint str_in (sub s : string) : bool :=
  String.prefix sub s ||
  match s with
  | EmptyString => false
  | String _ s' => str_in sub s'
  end.

(** The double-quote character, for messages that contain it. *)
Definition dquote : string :=
  String (Ascii.Ascii false true false false false true false false) EmptyString.

(** ** Insertion-ordered dictionaries (Python [dict]) *)

Module Dict.
Section Dict.
Context {K V : Type} `{EqDecision K}.

(** [d[k] = v]: an existing key keeps its position, a new key goes last. *)
Fixpoint set (k : K) (v : V) (d : list (K * V)) : list (K * V) :=
  match d with
  | [] => [(k, v)]
  | (k', v') :: d' =>
      if decide (k' = k) then (k, v) :: d' else (k', v') :: set k v d'
  end.

(** [d.get(k)] *)
Fixpoint get (k : K) (d : list (K * V)) : option V :=
  match d with
  | [] => None
  | (k', v') :: d' => if decide (k' = k) then Some v' else get k d'
  end.

(** A run of assignments [d[k] = v], in order. *)
Definition assign_all (d l : list (K * V)) : list (K * V) :=
  foldl (λ d kv, set kv.1 kv.2 d) d l.

Definition keys (d : list (K * V)) : list K := d.*1.
Definition values (d : list (K * V)) : list V := d.*2.

End Dict.
End Dict.

(** ** The mutation engine *)

Module Mutation.

(** One mutation operation on the byte at an offset. *)
Inductive Op : Type :=
| Xor (value : N)
| Subst (value : N).

(** The keyword arguments [xors={...}] and [substitutions={...}] of
    [fuzz_message]: a dictionary from offset to value, tagged with its
    operation. *)
Definition xors (d : gmap nat N) : gmap nat Op := Xor <$> d.
Definition substitutions (d : gmap nat N) : gmap nat Op := Subst <$> d.

Definition apply_op (op : Op) (b : N) : N :=
  match op with
  | Xor v => N.lxor b v
  | Subst v => v
  end.

Definition OutOfRange (offset : nat) : Exception :=
  mkException "OutOfRange" (pretty offset).

(** [data[offset] = op(data[offset])]; an offset beyond the message is
    an error. *)
Definition mutate_at (data : list N) (entry : nat * Op) : Result (list N) :=
  match data !! entry.1 with
  | Some b => Returned (<[entry.1 := apply_op entry.2 b]> data)
  | None => Raised (OutOfRange entry.1)
  end.

Fixpoint mutate_all (entries : list (nat * Op)) (data : list N) : Result (list N) :=
  match entries with
  | [] => Returned data
  | entry :: rest =>
      match mutate_at data entry with
      | Returned data' => mutate_all rest data'
      | Raised e => Raised e
      | Exited c => Exited c
      end
  end.

(** Modelled from the spec: the mutation engine behind [fuzz_message]
    lives in [tlsfuzzer.messages], which the script only imports.
    Section 4.1: given a serialized message and a set of
    offset->operation pairs, produce a byte sequence identical to the
    input except at the given offsets, where [output[offset] =
    input[offset] XOR value] or [output[offset] = value]; an offset
    beyond the message fails with [OutOfRange]. *)
Definition mutate (data : list N) (mutation : gmap nat Op) : Result (list N) :=
  mutate_all (map_to_list mutation) data.

End Mutation.

(** ** Constants of tlslite-ng used by the script *)

Module CipherSuite.
Definition TLS_RSA_WITH_AES_128_CBC_SHA : Z := 0x002F.
Definition TLS_ECDHE_RSA_WITH_AES_128_CBC_SHA : Z := 0xC013.
Definition TLS_EMPTY_RENEGOTIATION_INFO_SCSV : Z := 0x00FF.
End CipherSuite.

Module AlertLevel.
Definition warning : N := 1.
Definition fatal : N := 2.
End AlertLevel.

Module AlertDescription.
Definition close_notify : N := 0.
Definition decode_error : N := 50.
End AlertDescription.

Module GroupName.
Definition secp256r1 : N := 23.
Definition ffdhe2048 : N := 256.
End GroupName.

Module ExtensionType.
Definition supported_groups : N := 10.
Definition signature_algorithms : N := 13.
Definition extended_master_secret : N := 23.
Definition signature_algorithms_cert : N := 50.
Definition renegotiation_info : N := 0xff01.
End ExtensionType.

Module HashAlgorithm.
Definition sha1 : N := 2.
Definition sha256 : N := 4.
Definition sha384 : N := 5.
Definition sha512 : N := 6.
End HashAlgorithm.

Module SignatureAlgorithm.
Definition rsa : N := 1.
Definition ecdsa : N := 3.
End SignatureAlgorithm.

(** ** Message nodes and conversation trees *)

Inductive Extension : Type :=
| AutoEmptyExtension
| SupportedGroupsExtension (groups : list N)
| SignatureAlgorithmsExtension (sig_algs : list (N * N))
| SignatureAlgorithmsCertExtension (sig_algs : list (N * N)).

(** The node classes the script instantiates, with their arguments. *)
Inductive Message : Type :=
| Connect (host : string) (port : Z)
| ClientHelloGenerator (ciphers : list Z) (version : N * N)
    (extensions : option (list (N * option Extension)))
| ClientKeyExchangeGenerator
| ChangeCipherSpecGenerator
| FinishedGenerator
| ApplicationDataGenerator (payload : string)
| AlertGenerator (level description : N)
| ExpectServerHello (extensions : list (N * option Extension))
| ExpectCertificate
| ExpectServerKeyExchange
| ExpectServerHelloDone
| ExpectChangeCipherSpec
| ExpectFinished
| ExpectAlert (level description : option N)
| ExpectApplicationData
| ExpectClose.

(** A node object before it is linked into a tree: what it sends or
    expects, and the mutation [fuzz_message] attached to it, if any. *)
Record Node : Type := mkNode {
  message : Message;
  mutation : option (gmap nat Mutation.Op)
}.

Definition plain (m : Message) : Node := mkNode m None.
Coercion plain : Message >-> Node.

(** [fuzz_message(gen, xors=...)] or [fuzz_message(gen,
    substitutions=...)]: the generator with the mutation attached. *)
Definition fuzz_message (gen : Node) (mutation : gmap nat Mutation.Op) : Node :=
  mkNode (message gen) (Some mutation).

(** What a generator writes: the serialized message, passed through the
    mutation engine when [fuzz_message] wrapped the generator. *)
Definition write (serialize : Message → list N) (gen : Node) : Result (list N) :=
  match mutation gen with
  | None => Returned (serialize (message gen))
  | Some m => Mutation.mutate (serialize (message gen)) m
  end.

(** Modelled from the spec: the tree node class is in [tlsfuzzer], which
    the script only imports. Section 3: a node has an ordered list of
    children and an optional sibling; the nodes of one conversation live
    in a store of their own and refer to each other by index. *)
Record TreeNode : Type := mkTreeNode {
  node : Node;
  children : list nat;
  next_sibling : option nat
}.

Record Conversation : Type := mkConversation {
  root : nat;
  nodes : list TreeNode
}.

(** Tree construction threads the node store. *)
Definition Build (A : Type) : Type := list TreeNode → A * list TreeNode.

#[global] Instance build_ret : MRet Build := λ A a store, (a, store).
#[global] Instance build_bind : MBind Build :=
  λ A B f m store, let '(a, store') := m store in f a store'.

(** Instantiating a node class allocates a node without links. *)
Definition new_node (n : Node) : Build nat :=
  λ store, (length store, store ++ [mkTreeNode n [] None]).

Definition update_node (id : nat) (f : TreeNode → TreeNode) : Build unit :=
  λ store, (tt, alter f id store).

(** Modelled from the spec, section 4.2: [add_child] appends to a node's
    children and returns the new node. *)
Definition add_child (parent : nat) (child : Node) : Build nat :=
  c ← new_node child;
  update_node parent (λ p, mkTreeNode (node p) (children p ++ [c]) (next_sibling p));;
  mret c.

(** [parent.next_sibling = sibling] *)
Definition set_next_sibling (parent : nat) (sibling : Node) : Build unit :=
  s ← new_node sibling;
  update_node parent (λ p, mkTreeNode (node p) (children p) (Some s)).

(** Each conversation owns its tree: it is built in an empty store. *)
Definition build (b : Build nat) : Conversation :=
  let '(r, store) := b [] in mkConversation r store.

(** ** The scenario population *)

(** What the options leave behind for scenario construction: the target,
    the cipher suite list and the two protocol toggles. *)
Record Setup : Type := mkSetup {
  host : string;
  port : Z;
  ciphers : list Z;
  dhe : bool;
  ems : bool
}.

Module Scenario.

(** The [ext] dictionary as filled in before it is copied. *)
Definition ext_filled (s : Setup) : list (N * option Extension) :=
  let ext := [] in
  let ext :=
    if ems s
    then Dict.set ExtensionType.extended_master_secret (Some AutoEmptyExtension) ext
    else ext in
  if dhe s then
    let groups := [GroupName.secp256r1; GroupName.ffdhe2048] in
    let ext :=
      Dict.set ExtensionType.supported_groups
        (Some (SupportedGroupsExtension groups)) ext in
    let sig_algs :=
      x ← [HashAlgorithm.sha1; HashAlgorithm.sha256;
           HashAlgorithm.sha384; HashAlgorithm.sha512];
      y ← [SignatureAlgorithm.ecdsa; SignatureAlgorithm.rsa];
      [(x, y)] in
    let ext :=
      Dict.set ExtensionType.signature_algorithms
        (Some (SignatureAlgorithmsExtension sig_algs)) ext in
    Dict.set ExtensionType.signature_algorithms_cert
      (Some (SignatureAlgorithmsCertExtension sig_algs)) ext
  else ext.

(** [ext_renego_info = dict(ext)] and then
    [ext_renego_info[ExtensionType.renegotiation_info] = None]. *)
Definition ext_renego_info (s : Setup) : list (N * option Extension) :=
  Dict.set ExtensionType.renegotiation_info None (ext_filled s).

(** [if not ext: ext = None] *)
Definition ext (s : Setup) : option (list (N * option Extension)) :=
  match ext_filled s with
  | [] => None
  | e => Some e
  end.

(** [not ext], once [ext] is either [None] or a non-empty dictionary. *)
Definition not_ext (s : Setup) : bool :=
  match ext s with
  | None => true
  | Some _ => false
  end.

Definition srv_ext (s : Setup) : list (N * option Extension) :=
  let srv_ext := [(ExtensionType.renegotiation_info, None)] in
  if ems s
  then Dict.set ExtensionType.extended_master_secret None srv_ext
  else srv_ext.

(** The handshake that both sanity conversations share after their
    ClientHello. *)
Definition full_handshake (s : Setup) (n : nat) : Build unit :=
  n ← add_child n (ExpectServerHello (srv_ext s));
  n ← add_child n ExpectCertificate;
  n ← (if dhe s then add_child n ExpectServerKeyExchange else mret n);
  n ← add_child n ExpectServerHelloDone;
  n ← add_child n ClientKeyExchangeGenerator;
  n ← add_child n ChangeCipherSpecGenerator;
  n ← add_child n FinishedGenerator;
  n ← add_child n ExpectChangeCipherSpec;
  n ← add_child n ExpectFinished;
  n ← add_child n (ApplicationDataGenerator "GET / HTTP/1.0

");
  n ← add_child n ExpectApplicationData;
  n ← add_child n (AlertGenerator AlertLevel.warning AlertDescription.close_notify);
  n ← add_child n (ExpectAlert None None);
  set_next_sibling n ExpectClose.

(** The ClientHello without extensions of its own: the cipher list plus
    the renegotiation SCSV, and [extensions=ext]. *)
Definition hello_scsv (s : Setup) : Message :=
  ClientHelloGenerator
    (ciphers s ++ [CipherSuite.TLS_EMPTY_RENEGOTIATION_INFO_SCSV]) (3, 3)%N (ext s).

(** The ClientHello with [extensions=ext_renego_info]. *)
Definition hello_renego (s : Setup) : Message :=
  ClientHelloGenerator (ciphers s) (3, 3)%N (Some (ext_renego_info s)).

Definition sanity (s : Setup) : Conversation :=
  build (
    conversation ← new_node (Connect (host s) (port s));
    n ← add_child conversation (hello_scsv s);
    full_handshake s n;;
    mret conversation).

Definition sanity_w_ext (s : Setup) : Conversation :=
  build (
    conversation ← new_node (Connect (host s) (port s));
    n ← add_child conversation (hello_renego s);
    full_handshake s n;;
    mret conversation).

(** The shape of every mutated conversation: connect, send the fuzzed
    ClientHello, expect an alert, expect the connection to close. *)
Definition fuzzed (s : Setup) (hello_gen : Message)
    (mutation : gmap nat Mutation.Op) (alert : Message) : Conversation :=
  build (
    conversation ← new_node (Connect (host s) (port s));
    n ← add_child conversation (fuzz_message hello_gen mutation);
    n ← add_child n alert;
    n ← add_child n ExpectClose;
    mret conversation).

Definition any_alert : Message := ExpectAlert None None.
Definition fatal_alert : Message := ExpectAlert (Some AlertLevel.fatal) None.
Definition decode_error_alert : Message :=
  ExpectAlert (Some AlertLevel.fatal) (Some AlertDescription.decode_error).

(** The two skip conditions of the sweeps over the ClientHello with
    extensions ([continue] in the source). *)
Definition skip_cipher_suites_len (s : Setup) (i : N) : bool :=
  (dhe s && negb (ems s) && bool_decide (i = 56%N))
  || (dhe s && ems s && bool_decide (i = 60%N)).

Definition skip_compression_len (s : Setup) (i : N) : bool :=
  (negb (dhe s) && negb (ems s) && bool_decide (N.lxor 1 i = 8%N))
  || (dhe s && negb (ems s) && bool_decide (N.lxor 1 i = 62%N))
  || (dhe s && ems s && bool_decide (N.lxor 1 i = 66%N))
  || (negb (dhe s) && ems s && bool_decide (N.lxor 1 i = 12%N)).

(** [for x in l: body], threading the dictionary being filled. *)
Definition for_in {A D : Type} (l : list A) (body : A → D → D) (d : D) : D :=
  foldl (λ d x, body x d) d l.

Definition conversations (s : Setup) : list (string * Conversation) :=
  let conversations := [] in
  let conversations := Dict.set "sanity" (sanity s) conversations in
  let conversations := Dict.set "sanity w/ext" (sanity_w_ext s) conversations in
  (* test different message types for client hello *)
  let conversations :=
    for_in (range 1 0x100) (λ i,
      Dict.set ("Client Hello type fuzz to " +:+ str (N.lxor 1 i))
        (fuzzed s (hello_scsv s) (Mutation.xors {[0 := i]}) any_alert))
      conversations in
  (* test invalid sizes for session ID length *)
  let conversations :=
    if not_ext s then
      for_in (range 1 0x100) (λ i,
        Dict.set ("session ID len fuzz to " +:+ str i)
          (fuzzed s (hello_scsv s) (Mutation.substitutions {[38 := i]})
             decode_error_alert))
        conversations
    else conversations in
  let conversations :=
    for_in (range 1 0x100) (λ i,
      Dict.set ("session ID len fuzz to " +:+ str i +:+ " w/ext")
        (fuzzed s (hello_renego s) (Mutation.substitutions {[38 := i]}) any_alert))
      conversations in
  (* test invalid sizes for cipher suites length *)
  let conversations :=
    if not_ext s then
      let conversations :=
        for_in (range 1 0x100) (λ i,
          Dict.set ("cipher suites len fuzz to " +:+ str (N.lxor 4 i))
            (fuzzed s (hello_scsv s) (Mutation.xors {[40 := i]})
               decode_error_alert))
          conversations in
      for_in [1; 2; 4; 8; 16; 128; 254; 255]%N (λ i,
        for_in (range 0 0x100) (λ j,
          Dict.set ("cipher suites len fuzz to " +:+ str (N.shiftl i 8 + j))
            (fuzzed s (hello_scsv s)
               (Mutation.substitutions (<[39 := i]> {[40 := j]}))
               decode_error_alert)))
        conversations
    else conversations in
  let conversations :=
    for_in (range 1 0x100) (λ i conversations,
      (* create valid extension-less ClientHellos *)
      if skip_cipher_suites_len s i then conversations else
      Dict.set ("cipher suites len fuzz to " +:+ str (N.lxor 4 i) +:+ " w/ext")
        (fuzzed s (hello_renego s) (Mutation.xors {[40 := i]}) fatal_alert)
        conversations)
      conversations in
  let conversations :=
    for_in [1; 2; 4; 8; 16; 128; 254; 255]%N (λ i,
      for_in (range 0 0x100) (λ j,
        Dict.set
          ("cipher suites len fuzz to " +:+ str (N.shiftl i 8 + j) +:+ " w/ext")
          (fuzzed s (hello_renego s)
             (Mutation.substitutions (<[39 := i]> {[40 := j]}))
             decode_error_alert)))
      conversations in
  (* test invalid sizes for compression methods *)
  let conversations :=
    if not_ext s then
      for_in (range 1 0x100) (λ i,
        Dict.set ("compression methods len fuzz to " +:+ str (N.lxor 1 i))
          (fuzzed s (hello_scsv s) (Mutation.xors {[45 := i]})
             decode_error_alert))
        conversations
    else conversations in
  let conversations :=
    for_in (range 1 0x100) (λ i conversations,
      if skip_compression_len s i then conversations else
      Dict.set
        ("compression methods len fuzz to " +:+ str (N.lxor 1 i) +:+ " w/ext")
        (fuzzed s (hello_renego s) (Mutation.xors {[43 := i]}) decode_error_alert)
        conversations)
      conversations in
  (* test invalid sizes for extensions *)
  let conversations :=
    for_in (range 1 0x100) (λ i,
      Dict.set ("extensions len fuzz to " +:+ str (N.lxor 5 i))
        (fuzzed s (hello_renego s) (Mutation.xors {[46 := i]}) decode_error_alert))
      conversations in
  for_in [1; 2; 4; 8; 16; 254; 255]%N (λ i,
    for_in (range 0 0x100) (λ j,
      Dict.set ("extensions len fuzz to " +:+ str (N.shiftl i 8 + j))
        (fuzzed s (hello_renego s)
           (Mutation.substitutions (<[45 := i]> {[46 := j]}))
           decode_error_alert)))
    conversations.

(** The assignments [conversations[name] = conversation] that
    [conversations] makes, in program order. *)
Definition assignments (s : Setup) : list (string * Conversation) :=
  [("sanity", sanity s)]
  ++ [("sanity w/ext", sanity_w_ext s)]
  ++ ((λ i, ("Client Hello type fuzz to " +:+ str (N.lxor 1 i),
             fuzzed s (hello_scsv s) (Mutation.xors {[0 := i]}) any_alert))
        <$> range 1 0x100)
  ++ (if not_ext s then
        (λ i, ("session ID len fuzz to " +:+ str i,
               fuzzed s (hello_scsv s) (Mutation.substitutions {[38 := i]})
                 decode_error_alert))
          <$> range 1 0x100
      else [])
  ++ ((λ i, ("session ID len fuzz to " +:+ str i +:+ " w/ext",
             fuzzed s (hello_renego s) (Mutation.substitutions {[38 := i]}) any_alert))
        <$> range 1 0x100)
  ++ (if not_ext s then
        ((λ i, ("cipher suites len fuzz to " +:+ str (N.lxor 4 i),
                fuzzed s (hello_scsv s) (Mutation.xors {[40 := i]})
                  decode_error_alert))
           <$> range 1 0x100)
        ++ (i ← [1; 2; 4; 8; 16; 128; 254; 255]%N;
            (λ j, ("cipher suites len fuzz to " +:+ str (N.shiftl i 8 + j),
                   fuzzed s (hello_scsv s)
                     (Mutation.substitutions (<[39 := i]> {[40 := j]}))
                     decode_error_alert))
              <$> range 0 0x100)
      else [])
  ++ ((λ i, ("cipher suites len fuzz to " +:+ str (N.lxor 4 i) +:+ " w/ext",
             fuzzed s (hello_renego s) (Mutation.xors {[40 := i]}) fatal_alert))
        <$> filter (λ i, skip_cipher_suites_len s i = false) (range 1 0x100))
  ++ (i ← [1; 2; 4; 8; 16; 128; 254; 255]%N;
      (λ j, ("cipher suites len fuzz to " +:+ str (N.shiftl i 8 + j) +:+ " w/ext",
             fuzzed s (hello_renego s)
               (Mutation.substitutions (<[39 := i]> {[40 := j]}))
               decode_error_alert))
        <$> range 0 0x100)
  ++ (if not_ext s then
        (λ i, ("compression methods len fuzz to " +:+ str (N.lxor 1 i),
               fuzzed s (hello_scsv s) (Mutation.xors {[45 := i]})
                 decode_error_alert))
          <$> range 1 0x100
      else [])
  ++ ((λ i, ("compression methods len fuzz to " +:+ str (N.lxor 1 i) +:+ " w/ext",
             fuzzed s (hello_renego s) (Mutation.xors {[43 := i]}) decode_error_alert))
        <$> filter (λ i, skip_compression_len s i = false) (range 1 0x100))
  ++ ((λ i, ("extensions len fuzz to " +:+ str (N.lxor 5 i),
             fuzzed s (hello_renego s) (Mutation.xors {[46 := i]}) decode_error_alert))
        <$> range 1 0x100)
  ++ (i ← [1; 2; 4; 8; 16; 254; 255]%N;
      (λ j, ("extensions len fuzz to " +:+ str (N.shiftl i 8 + j),
             fuzzed s (hello_renego s)
               (Mutation.substitutions (<[45 := i]> {[46 := j]}))
               decode_error_alert))
        <$> range 0 0x100).

(** The names those assignments use, in the same order. *)
Definition names (s : Setup) : list string :=
  ["sanity"]
  ++ ["sanity w/ext"]
  ++ ((λ i, "Client Hello type fuzz to " +:+ str (N.lxor 1 i)) <$> range 1 0x100)
  ++ (if not_ext s then
        (λ i, "session ID len fuzz to " +:+ str i) <$> range 1 0x100
      else [])
  ++ ((λ i, "session ID len fuzz to " +:+ str i +:+ " w/ext") <$> range 1 0x100)
  ++ (if not_ext s then
        ((λ i, "cipher suites len fuzz to " +:+ str (N.lxor 4 i)) <$> range 1 0x100)
        ++ (i ← [1; 2; 4; 8; 16; 128; 254; 255]%N;
            (λ j, "cipher suites len fuzz to " +:+ str (N.shiftl i 8 + j))
              <$> range 0 0x100)
      else [])
  ++ ((λ i, "cipher suites len fuzz to " +:+ str (N.lxor 4 i) +:+ " w/ext")
        <$> filter (λ i, skip_cipher_suites_len s i = false) (range 1 0x100))
  ++ (i ← [1; 2; 4; 8; 16; 128; 254; 255]%N;
      (λ j, "cipher suites len fuzz to " +:+ str (N.shiftl i 8 + j) +:+ " w/ext")
        <$> range 0 0x100)
  ++ (if not_ext s then
        (λ i, "compression methods len fuzz to " +:+ str (N.lxor 1 i))
          <$> range 1 0x100
      else [])
  ++ ((λ i, "compression methods len fuzz to " +:+ str (N.lxor 1 i) +:+ " w/ext")
        <$> filter (λ i, skip_compression_len s i = false) (range 1 0x100))
  ++ ((λ i, "extensions len fuzz to " +:+ str (N.lxor 5 i)) <$> range 1 0x100)
  ++ (i ← [1; 2; 4; 8; 16; 254; 255]%N;
      (λ j, "extensions len fuzz to " +:+ str (N.shiftl i 8 + j)) <$> range 0 0x100).

(** [name in names], computed with the boolean equality of strings. *)
Definition has_name (name : string) (names : list string) : bool :=
  existsb (String.eqb name) names.

(** Whether, for each value of a sweep, the name the sweep gives it is
    among [names] exactly when the value is not skipped. *)
Definition sweep_matches (names : list string) (name_of : N → string)
    (skip : N → bool) (values : list N) : bool :=
  forallb (λ i, Bool.eqb (has_name (name_of i) names) (negb (skip i))) values.

End Scenario.

(** ** What the script takes from its environment

    The runner and the target it talks to, the traceback printer, the
    random source behind [random.sample], [natural_sort_keys], [repr],
    [int], and the cipher suite tables of tlslite-ng. *)
Class Platform : Type := {
  World : Type;
  (** [Runner(c_test).run()] against the target, which may change state:
      [None] when it returns, [Some exp] when it raises [exp] *)
  runner_run : Conversation → World → option Exception * World;
  (** [traceback.format_exc()] for the exception being handled *)
  format_exc : Exception → string;
  (** the [i]-th draw of the random source, used below a bound *)
  randbelow : nat → nat → nat;
  (** [sorted(l, key=natural_sort_keys)] *)
  natural_sort : list string → list string;
  repr : string → string;
  (** [int(arg)] and [int(arg, 16)]; [None] stands for [ValueError] *)
  int : string → option Z;
  int16 : string → option Z;
  (** [getattr(CipherSuite, arg)]; [None] stands for [AttributeError] *)
  cipher_suite_attr : string → option Z;
  ecdhAllSuites : list Z;
  dhAllSuites : list Z
}.

Definition LF : string := String (Ascii.Ascii false true false true false false false false) EmptyString.
Definition TAB : string := String (Ascii.Ascii true false false true false false false false) EmptyString.

(** ** The state of [main] and its statements *)

Record HState `{Platform} : Type := mkHState {
  good : nat;
  bad : nat;
  xfail : nat;
  xpass : nat;
  failed : list string;
  xpassed : list string;
  stdout : list string;
  world : World
}.
Arguments mkHState {_} _ _ _ _ _ _ _ _.

(** A statement: it may update the state, and it returns, raises or
    leaves through [sys.exit]. *)
Definition M `{Platform} (A : Type) : Type := HState → Result A * HState.

#[global] Instance M_ret `{Platform} : MRet M := λ A a st, (Returned a, st).
#[global] Instance M_bind `{Platform} : MBind M :=
  λ A B f m st,
    match m st with
    | (Returned a, st') => f a st'
    | (Raised e, st') => (Raised e, st')
    | (Exited c, st') => (Exited c, st')
    end.

Section Statements.
Context `{Platform}.

Definition raise {A : Type} (e : Exception) : M A := λ st, (Raised e, st).
Definition sys_exit {A : Type} (code : Z) : M A := λ st, (Exited code, st).
Definition get_state : M HState := λ st, (Returned st, st).
Definition modify (f : HState → HState) : M unit := λ st, (Returned tt, f st).

(** [try: body except Exception as exp: handler(exp)] *)
Definition try_except {A : Type} (body : M A) (handler : Exception → M A) : M A :=
  λ st,
    match body st with
    | (Raised exp, st') => handler exp st'
    | other => other
    end.

(** [for x in l: body(x)] *)
Fixpoint for_each {A : Type} (l : list A) (body : A → M unit) : M unit :=
  match l with
  | [] => mret tt
  | x :: l' => body x;; for_each l' body
  end.

(** The state with [out] as what has been printed so far. *)
Definition with_stdout (out : list string) (st : HState) : HState :=
  mkHState (good st) (bad st) (xfail st) (xpass st)
    (failed st) (xpassed st) out (world st).

Definition print (line : string) : M unit :=
  modify (λ st, with_stdout (stdout st ++ [line]) st).

Definition incr_good : M unit :=
  modify (λ st, mkHState (good st + 1) (bad st) (xfail st) (xpass st)
                  (failed st) (xpassed st) (stdout st) (world st)).
Definition incr_bad : M unit :=
  modify (λ st, mkHState (good st) (bad st + 1) (xfail st) (xpass st)
                  (failed st) (xpassed st) (stdout st) (world st)).
Definition incr_xfail : M unit :=
  modify (λ st, mkHState (good st) (bad st) (xfail st + 1) (xpass st)
                  (failed st) (xpassed st) (stdout st) (world st)).
Definition incr_xpass : M unit :=
  modify (λ st, mkHState (good st) (bad st) (xfail st) (xpass st + 1)
                  (failed st) (xpassed st) (stdout st) (world st)).
Definition failed_append (c_name : string) : M unit :=
  modify (λ st, mkHState (good st) (bad st) (xfail st) (xpass st)
                  (failed st ++ [c_name]) (xpassed st) (stdout st) (world st)).
Definition xpassed_append (c_name : string) : M unit :=
  modify (λ st, mkHState (good st) (bad st) (xfail st) (xpass st)
                  (failed st) (xpassed st ++ [c_name]) (stdout st) (world st)).

(** [good = 0; bad = 0; xfail = 0; xpass = 0; failed = []; xpassed = []] *)
Definition init_counters : M unit :=
  modify (λ st, mkHState 0 0 0 0 [] [] (stdout st) (world st)).

(** [runner = Runner(c_test); runner.run()] *)
Definition run_runner (c_test : Conversation) : M unit :=
  λ st,
    let '(exp, w) := runner_run c_test (world st) in
    (match exp with None => Returned tt | Some exp => Raised exp end,
     mkHState (good st) (bad st) (xfail st) (xpass st)
       (failed st) (xpassed st) (stdout st) w).

End Statements.

(** ** Options *)

Module Opt.
Record t : Type := mk {
  host : string;
  port : Z;
  num_limit : Z;
  run_exclude : gset string;
  expected_failures : gmap string (option string);
  last_exp_tmp : option string;
  dhe : bool;
  ciphers : option (list Z);
  ems : bool
}.

Definition defaults : t :=
  mk "localhost" 4433 500 ∅ ∅ None false None false.

Definition set_host (v : string) (o : t) : t :=
  mk v (port o) (num_limit o) (run_exclude o) (expected_failures o)
     (last_exp_tmp o) (dhe o) (ciphers o) (ems o).
Definition set_port (v : Z) (o : t) : t :=
  mk (host o) v (num_limit o) (run_exclude o) (expected_failures o)
     (last_exp_tmp o) (dhe o) (ciphers o) (ems o).
Definition set_num_limit (v : Z) (o : t) : t :=
  mk (host o) (port o) v (run_exclude o) (expected_failures o)
     (last_exp_tmp o) (dhe o) (ciphers o) (ems o).
Definition set_run_exclude (v : gset string) (o : t) : t :=
  mk (host o) (port o) (num_limit o) v (expected_failures o)
     (last_exp_tmp o) (dhe o) (ciphers o) (ems o).
Definition set_expected_failures (v : gmap string (option string)) (o : t) : t :=
  mk (host o) (port o) (num_limit o) (run_exclude o) v
     (last_exp_tmp o) (dhe o) (ciphers o) (ems o).
Definition set_last_exp_tmp (v : option string) (o : t) : t :=
  mk (host o) (port o) (num_limit o) (run_exclude o) (expected_failures o)
     v (dhe o) (ciphers o) (ems o).
Definition set_dhe (v : bool) (o : t) : t :=
  mk (host o) (port o) (num_limit o) (run_exclude o) (expected_failures o)
     (last_exp_tmp o) v (ciphers o) (ems o).
Definition set_ciphers (v : option (list Z)) (o : t) : t :=
  mk (host o) (port o) (num_limit o) (run_exclude o) (expected_failures o)
     (last_exp_tmp o) (dhe o) v (ems o).
Definition set_ems (v : bool) (o : t) : t :=
  mk (host o) (port o) (num_limit o) (run_exclude o) (expected_failures o)
     (last_exp_tmp o) (dhe o) (ciphers o) v.
End Opt.

Section Main.
Context `{Platform}.

Definition help_msg : M unit :=
  print "Usage: <script-name> [-h hostname] [-p port] [[probe-name] ...]";;
  print " -h hostname    name of the host to run the test against";;
  print "                localhost by default";;
  print " -p port        port number to use for connection, 4433 by default";;
  print " probe-name     if present, will run only the probes with given";;
  print ("                names and not all of them, e.g " +:+ dquote +:+ "sanity" +:+ dquote);;
  print " -e probe-name  exclude the probe from the list of the ones run";;
  print "                may be specified multiple times";;
  print " -x probe-name  expect the probe to fail. When such probe passes despite being marked like this";;
  print "                it will be reported in the test summary and the whole script will fail.";;
  print "                May be specified multiple times.";;
  print " -X message     expect the `message` substring in exception raised during";;
  print "                execution of preceding expected failure probe";;
  print "                usage: [-x probe-name] [-X exception], order is compulsory!";;
  print " -n num         run 'num' or all(if 0) tests instead of default(500)";;
  print ("                (excluding " +:+ dquote +:+ "sanity" +:+ dquote +:+ " tests)");;
  print " -d             negotiate ECDHE-RSA instead of RSA key exchange, send";;
  print "                additional extensions";;
  print " -C ciph        Use specified ciphersuite. Either numerical value or";;
  print "                IETF name.";;
  print " -M | --ems     Advertise support for Extended Master Secret";;
  print " --help         this message".

(** [int(arg)], raising [ValueError] on a string that is no integer. *)
Definition int_or_raise (parse : string → option Z) (base : string) (arg : string) : M Z :=
  match parse arg with
  | Some z => mret z
  | None =>
      raise (ValueError ("invalid literal for int() with base " +:+ base +:+ ": "
                         +:+ repr arg))
  end.

(** One round of the loop over [opts]. *)
Definition handle_option (o : Opt.t) (opt arg : string) : M Opt.t :=
  if decide (opt = "-h") then
    mret (Opt.set_host arg o)
  else if decide (opt = "-p") then
    p ← int_or_raise int "10" arg;
    mret (Opt.set_port p o)
  else if decide (opt = "-e") then
    mret (Opt.set_run_exclude ({[arg]} ∪ Opt.run_exclude o) o)
  else if decide (opt = "-x") then
    mret (Opt.set_last_exp_tmp (Some arg)
            (Opt.set_expected_failures (<[arg := None]> (Opt.expected_failures o)) o))
  else if decide (opt = "-X") then
    (* [not last_exp_tmp] holds for [None] and for the empty string *)
    match Opt.last_exp_tmp o with
    | None => raise (ValueError "-x has to be specified before -X")
    | Some last =>
        if decide (last = "") then
          raise (ValueError "-x has to be specified before -X")
        else
          mret (Opt.set_expected_failures
                  (<[last := Some arg]> (Opt.expected_failures o)) o)
    end
  else if decide (opt = "-n") then
    n ← int_or_raise int "10" arg;
    mret (Opt.set_num_limit n o)
  else if decide (opt = "-d") then
    mret (Opt.set_dhe true o)
  else if decide (opt = "-C") then
    if decide (String.substring 0 2 arg = "0x") then
      c ← int_or_raise int16 "16" arg;
      mret (Opt.set_ciphers (Some [c]) o)
    else
      match cipher_suite_attr arg with
      | Some c => mret (Opt.set_ciphers (Some [c]) o)
      | None =>
          c ← int_or_raise int "10" arg;
          mret (Opt.set_ciphers (Some [c]) o)
      end
  else if decide (opt = "-M" ∨ opt = "--ems") then
    mret (Opt.set_ems true o)
  else if decide (opt = "--help") then
    help_msg;;
    sys_exit 0
  else
    raise (ValueError ("Unknown option: " +:+ opt)).

(** [for opt, arg in opts: ...] *)
Fixpoint handle_options (opts : list (string * string)) (o : Opt.t) : M Opt.t :=
  match opts with
  | [] => mret o
  | (opt, arg) :: opts' =>
      o' ← handle_option o opt arg;
      handle_options opts' o'
  end.

(** The cipher list and the key exchange toggle after the defaults are
    filled in. *)
Definition setup_of (o : Opt.t) : Setup :=
  match Opt.ciphers o with
  | Some (c :: cs) =>
      let dhe :=
        if negb (Opt.dhe o) then
          (* by default send minimal set of extensions, but allow user
             to override it *)
          bool_decide (c ∈ ecdhAllSuites) || bool_decide (c ∈ dhAllSuites)
        else Opt.dhe o in
      mkSetup (Opt.host o) (Opt.port o) (c :: cs) dhe (Opt.ems o)
  | _ =>
      let ciphers :=
        if Opt.dhe o
        then [CipherSuite.TLS_ECDHE_RSA_WITH_AES_128_CBC_SHA]
        else [CipherSuite.TLS_RSA_WITH_AES_128_CBC_SHA] in
      mkSetup (Opt.host o) (Opt.port o) ciphers (Opt.dhe o) (Opt.ems o)
  end.

(** [random.sample(population, k)]: [k] draws without replacement, each
    at the index the random source gives below the size of what is left. *)
Fixpoint draw {A : Type} (k i : nat) (pool : list A) : list A :=
  match k with
  | 0 => []
  | S k' =>
      let j := randbelow i (length pool) `mod` length pool in
      match pool !! j with
      | Some x => x :: draw k' (S i) (delete j pool)
      | None => []
      end
  end.

Definition sample {A : Type} (population : list A) (k : Z) : M (list A) :=
  if decide (0 ≤ k ≤ Z.of_nat (length population))%Z
  then mret (draw (Z.to_nat k) 0 population)
  else raise (ValueError "Sample larger than population or is negative").

(** [conversations[k]], raising [KeyError] on a missing key. *)
Definition getitem (conversations : list (string * Conversation)) (k : string)
    : M Conversation :=
  match Dict.get k conversations with
  | Some c => mret c
  | None => raise (mkException "KeyError" (repr k))
  end.

(** [str(exception)], where [exception] is [None] until one is caught. *)
Definition str_exception (exception : option Exception) : string :=
  match exception with
  | Some e => exc_str e
  | None => "None"
  end.

(** The body of the loop over [ordered_tests]. *)
Definition run_test (expected_failures : gmap string (option string))
    (t : string * Conversation) : M unit :=
  let '(c_name, c_test) := t in
  print (c_name +:+ " ...");;
  let res := true in
  let exception := None in
  '(res, exception) ←
    try_except
      (run_runner c_test;;
       mret (res, exception))
      (λ exp,
         let exception := Some exp in
         print "Error while processing";;
         print (format_exc exp);;
         let res := false in
         mret (res, exception));
  match expected_failures !! c_name with
  | Some expected =>
      if res : bool then
        incr_xpass;;
        xpassed_append c_name;;
        print ("XPASS-expected failure but test passed" +:+ LF)
      else
        match expected with
        | Some message =>
            if negb (str_in message (str_exception exception)) then
              incr_bad;;
              failed_append c_name;;
              print ("Expected error message: " +:+ message +:+ LF)
            else
              incr_xfail;;
              print ("OK-expected failure" +:+ LF)
        | None =>
            incr_xfail;;
            print ("OK-expected failure" +:+ LF)
        end
  | None =>
      if res : bool then
        incr_good;;
        print ("OK" +:+ LF)
      else
        incr_bad;;
        failed_append c_name
  end.

Definition version : N := 4.

(** [sep.join(l)] *)
Fixpoint join (sep : string) (l : list string) : string :=
  match l with
  | [] => ""
  | [x] => x
  | x :: l' => x +:+ sep +:+ join sep l'
  end.

Definition len {A : Type} (l : list A) : Z := Z.of_nat (length l).

(** The selection of the tests to run: the sanity pair, the tests to
    sample from and the size of the sample. *)
Definition select (o : Opt.t) (run_only : option (gset string))
    (conversations : list (string * Conversation))
    : Z * list (string * Conversation) :=
  let num_limit :=
    if decide (Opt.num_limit o = 0%Z) then len conversations else Opt.num_limit o in
  let regular_tests :=
    filter (λ kv, kv.1 ≠ "sanity" ∧ kv.1 ∉ Opt.run_exclude o) conversations in
  match run_only with
  | Some only =>
      (* [if run_only:] a set is true when it is not empty *)
      if decide (only ≠ ∅) then
        let num_limit :=
          if decide (num_limit > Z.of_nat (size only))%Z
          then Z.of_nat (size only) else num_limit in
        (num_limit, filter (λ kv, kv.1 ∈ only) conversations)
      else (num_limit, regular_tests)
  | None => (num_limit, regular_tests)
  end.

Definition report (o : Opt.t) (conversations sampled_tests sanity_tests : list (string * Conversation))
    : M unit :=
  print "Test end";;
  print "====================";;
  print ("version: " +:+ str version);;
  print "====================";;
  print ("TOTAL: " +:+ str (N.of_nat (length sampled_tests + 2 * length sanity_tests)));;
  print ("SKIP: " +:+
         str (N.of_nat (size (Opt.run_exclude o ∩ list_to_set (Dict.keys conversations)))));;
  st ← get_state;
  print ("PASS: " +:+ str (N.of_nat (good st)));;
  print ("XFAIL: " +:+ str (N.of_nat (xfail st)));;
  print ("FAIL: " +:+ str (N.of_nat (bad st)));;
  print ("XPASS: " +:+ str (N.of_nat (xpass st)));;
  print "====================";;
  let sort := natural_sort (xpassed st) in
  (if decide (sort = []) then mret tt
   else print ("XPASSED:" +:+ LF +:+ TAB +:+ join (LF +:+ TAB) (repr <$> sort)));;
  let sort := natural_sort (failed st) in
  (if decide (sort = []) then mret tt
   else print ("FAILED:" +:+ LF +:+ TAB +:+ join (LF +:+ TAB) (repr <$> sort))).

(** The tests to run and their order: [sanity_tests], [sampled_tests]
    and [ordered_tests]. *)
Definition plan (o : Opt.t) (run_only : option (gset string))
    (conversations : list (string * Conversation))
    : M (list (string * Conversation) * list (string * Conversation)
         * list (string * Conversation)) :=
  (* make sure that sanity test is run first and last
     to verify that server was running and kept running throughout *)
  sanity ← getitem conversations "sanity";
  let sanity_tests := [("sanity", sanity)] in
  let '(num_limit, regular_tests) := select o run_only conversations in
  sampled_tests ← sample regular_tests (Z.min num_limit (len regular_tests));
  let ordered_tests := sanity_tests ++ sampled_tests ++ sanity_tests in
  mret (sanity_tests, sampled_tests, ordered_tests).

(** [main] from "run the conversation" on. *)
Definition run_conversations (o : Opt.t) (run_only : option (gset string))
    (conversations : list (string * Conversation)) : M unit :=
  init_counters;;
  '(sanity_tests, sampled_tests, ordered_tests) ← plan o run_only conversations;
  for_each ordered_tests (run_test (Opt.expected_failures o));;
  report o conversations sampled_tests sanity_tests;;
  st ← get_state;
  if decide (bad st ≠ 0 ∨ xpass st ≠ 0) then sys_exit 1 else mret tt.

(** [main], given what [getopt.getopt] made of [sys.argv[1:]]. *)
Definition main (opts : list (string * string)) (args : list string) : M unit :=
  o ← handle_options opts Opt.defaults;
  let run_only :=
    match args with
    | [] => None
    | _ => Some (list_to_set args)
    end in
  run_conversations o run_only (Scenario.conversations (setup_of o)).

End Main.

(** ** The runner *)

Module Runner.

(** What the target can make the connection deliver. *)
Inductive Inbound : Type :=
| InServerHello
| InCertificate
| InServerKeyExchange
| InServerHelloDone
| InChangeCipherSpec
| InFinished
| InApplicationData
| InAlert (level description : N)
| InClose.

Definition UnexpectedMessage : Exception := mkException "UnexpectedMessage" "Unexpected message".
Definition UnexpectedAlert : Exception := mkException "UnexpectedAlert" "Unexpected alert".
Definition ConnectionNotClosed : Exception := mkException "ConnectionNotClosed" "Connection not closed".
Definition TransportError : Exception := mkException "TransportError" "No data from the target".
Definition MissingNode : Exception := mkException "IndexError" "No such node".

Definition is_matcher (m : Message) : bool :=
  match m with
  | ExpectServerHello _ | ExpectCertificate | ExpectServerKeyExchange
  | ExpectServerHelloDone | ExpectChangeCipherSpec | ExpectFinished
  | ExpectAlert _ _ | ExpectApplicationData | ExpectClose => true
  | _ => false
  end.

(** An unconstrained field matches any value. *)
Definition field_matches (expected : option N) (actual : N) : bool :=
  match expected with
  | None => true
  | Some v => bool_decide (v = actual)
  end.

(** Modelled from the spec: the comparison of an inbound event with a
    matcher, section 4.3 and 7: a mismatch raises [UnexpectedMessage],
    [UnexpectedAlert] or [ConnectionNotClosed]. *)
Definition matches (expected : Message) (ev : Inbound) : option Exception :=
  match expected, ev with
  | ExpectAlert level description, InAlert l d =>
      if field_matches level l && field_matches description d
      then None else Some UnexpectedAlert
  | ExpectClose, InClose => None
  | ExpectClose, _ => Some ConnectionNotClosed
  | ExpectServerHello _, InServerHello => None
  | ExpectCertificate, InCertificate => None
  | ExpectServerKeyExchange, InServerKeyExchange => None
  | ExpectServerHelloDone, InServerHelloDone => None
  | ExpectChangeCipherSpec, InChangeCipherSpec => None
  | ExpectFinished, InFinished => None
  | ExpectApplicationData, InApplicationData => None
  | _, InAlert _ _ => Some UnexpectedAlert
  | _, _ => Some UnexpectedMessage
  end.

(** The connection of one conversation: what the target will deliver,
    and what has been transmitted to it. *)
Record Connection : Type := mkConnection {
  inbound : list Inbound;
  sent : list (list N)
}.

(** Modelled from the spec: the runner is in [tlsfuzzer.runner], which the
    script only imports. Section 4.3: starting at the root, a generator
    node builds its message, applies the mutation, transmits it and
    advances to the first child; a matcher node takes the next inbound
    event and compares it, a mismatch aborts the conversation, a match
    advances to the first child, else to the sibling; a node with neither
    ends the walk successfully. *)
Fixpoint walk (serialize : Message → list N) (tree : list TreeNode)
    (fuel : nat) (current : nat) (conn : Connection) : option Exception * Connection :=
  match fuel with
  | 0 => (Some (mkException "RuntimeError" "The conversation does not end"), conn)
  | S fuel' =>
      match tree !! current with
      | None => (Some MissingNode, conn)
      | Some tn =>
          if is_matcher (message (node tn)) then
            match inbound conn with
            | [] => (Some TransportError, conn)
            | ev :: rest =>
                let conn' := mkConnection rest (sent conn) in
                match matches (message (node tn)) ev with
                | Some e => (Some e, conn')
                | None =>
                    match children tn, next_sibling tn with
                    | c :: _, _ => walk serialize tree fuel' c conn'
                    | [], Some s => walk serialize tree fuel' s conn'
                    | [], None => (None, conn')
                    end
                end
            end
          else
            let transmitted :=
              match message (node tn) with
              | Connect _ _ => Returned (sent conn)
              | _ =>
                  match write serialize (node tn) with
                  | Returned data => Returned (sent conn ++ [data])
                  | Raised e => Raised e
                  | Exited c => Exited c
                  end
              end in
            match transmitted with
            | Returned sent' =>
                let conn' := mkConnection (inbound conn) sent' in
                match children tn with
                | c :: _ => walk serialize tree fuel' c conn'
                | [] => (None, conn')
                end
            | Raised e => (Some e, conn)
            | Exited _ => (Some (mkException "SystemExit" ""), conn)
            end
      end
  end.

(** [Runner(conversation).run()] on a fresh connection to a target that
    will deliver [target]. *)
Definition run (serialize : Message → list N) (conversation : Conversation)
    (target : list Inbound) : option Exception * Connection :=
  walk serialize (nodes conversation) (length (nodes conversation))
    (root conversation) (mkConnection target []).

(** A platform whose runner is the one above, against a target that
    answers every conversation as [target] says. *)
Definition scripted (serialize : Message → list N)
    (target : Conversation → list Inbound) : Platform := {|
  World := unit;
  runner_run := λ c w, ((run serialize c (target c)).1, w);
  format_exc := λ e, exc_class e +:+ ": " +:+ exc_str e;
  randbelow := λ i n, i;
  natural_sort := λ l, l;
  repr := λ s, "'" +:+ s +:+ "'";
  int := λ _, None;
  int16 := λ _, None;
  cipher_suite_attr := λ _, None;
  ecdhAllSuites := [CipherSuite.TLS_ECDHE_RSA_WITH_AES_128_CBC_SHA];
  dhAllSuites := []
|}.

(** The state in which [main] starts on that platform. *)
Definition start (serialize : Message → list N)
    (target : Conversation → list Inbound) : @HState (scripted serialize target) :=
  @mkHState (scripted serialize target) 0 0 0 0 [] [] [] tt.

End Runner.

(** ** The properties the harness is held to *)

(** The outcome of one run, as the specification names it. *)
Inductive Outcome : Type := PASS | FAIL | XFAIL | XPASS.

#[global] Instance Outcome_eq_dec : EqDecision Outcome.
Proof. solve_decision. Defined.

(** The classification in the words of the specification, section 4.5: a
    conversation expected to fail that passes is an XPASS; one expected
    to fail whose failure message does not contain the required
    substring is a FAIL; other expected failures are XFAIL; a
    conversation not expected to fail passes or fails as it runs. *)
Definition classify (expected_failures : gmap string (option string))
    (c_name : string) (error : option Exception) : Outcome :=
  match expected_failures !! c_name, error with
  | Some _, None => XPASS
  | Some (Some required), Some e => if str_in required (exc_str e) then XFAIL else FAIL
  | Some None, Some _ => XFAIL
  | None, None => PASS
  | None, Some _ => FAIL
  end.

Record RunResult : Type := mkRunResult {
  name : string;
  outcome : Outcome;
  error : option Exception
}.

Section Specification.
Context `{Platform}.

(** The run results of a sequence of tests, each run against the world
    the previous ones left behind. *)
Fixpoint run_results (expected_failures : gmap string (option string))
    (tests : list (string * Conversation)) (w : World) : list RunResult :=
  match tests with
  | [] => []
  | (c_name, c_test) :: tests' =>
      let '(exp, w') := runner_run c_test w in
      mkRunResult c_name (classify expected_failures c_name exp) exp
      :: run_results expected_failures tests' w'
  end.

Fixpoint world_after (tests : list (string * Conversation)) (w : World) : World :=
  match tests with
  | [] => w
  | (_, c_test) :: tests' => world_after tests' (runner_run c_test w).2
  end.

Definition count (o : Outcome) (results : list RunResult) : nat :=
  length (filter (λ r, outcome r = o) results).

Definition names_of (o : Outcome) (results : list RunResult) : list string :=
  name <$> filter (λ r, outcome r = o) results.

(** What the operator reads about one run. *)
Definition lines_of (expected_failures : gmap string (option string))
    (r : RunResult) : list string :=
  [name r +:+ " ..."]
  ++ match error r with
     | Some e => ["Error while processing"; format_exc e]
     | None => []
     end
  ++ match outcome r with
     | PASS => ["OK" +:+ LF]
     | XPASS => ["XPASS-expected failure but test passed" +:+ LF]
     | XFAIL => ["OK-expected failure" +:+ LF]
     | FAIL =>
         match expected_failures !! name r with
         | Some (Some required) => ["Expected error message: " +:+ required +:+ LF]
         | _ => []
         end
     end.

(** The state after one more run result has been booked. *)
Definition booked (ef : gmap string (option string)) (r : RunResult) (w : World) (st : HState) : HState :=
  mkHState
    (good st + if decide (outcome r = PASS) then 1 else 0)
    (bad st + if decide (outcome r = FAIL) then 1 else 0)
    (xfail st + if decide (outcome r = XFAIL) then 1 else 0)
    (xpass st + if decide (outcome r = XPASS) then 1 else 0)
    (failed st ++ if decide (outcome r = FAIL) then [name r] else [])
    (xpassed st ++ if decide (outcome r = XPASS) then [name r] else [])
    (stdout st ++ lines_of ef r)
    w.

(** The state after a sequence of run results has been booked. *)
Definition booked_all (ef : gmap string (option string)) (results : list RunResult) (w : World) (st : HState) : HState :=
  mkHState
    (good st + count PASS results)
    (bad st + count FAIL results)
    (xfail st + count XFAIL results)
    (xpass st + count XPASS results)
    (failed st ++ names_of FAIL results)
    (xpassed st ++ names_of XPASS results)
    (stdout st ++ results ≫= lines_of ef)
    w.

End Specification.

(** The probe name of the last [-x] among the options, if there is one. *)
Definition most_recent_x (opts : list (string * string)) : option string :=
  foldl (λ acc oa, if decide (oa.1 = "-x") then Some oa.2 else acc) None opts.

(** The exit status of the process: 0 when [main] returns, the argument
    of [sys.exit] when it leaves through it, and 1 when an exception is
    not caught, as the interpreter ends a script that dies of one. *)
Definition exit_status (r : Result unit) : option Z :=
  match r with
  | Returned _ => Some 0%Z
  | Exited code => Some code
  | Raised _ => Some 1%Z
  end.

(** A conversation is well terminated when its root is a [Connect] node
    and every path along children from the root to a leaf ends in
    [ExpectClose], or in an [ExpectAlert] whose sibling is [ExpectClose]. *)
Definition is_expect_close (c : Conversation) (id : nat) : bool :=
  match nodes c !! id with
  | Some tn => match message (node tn) with ExpectClose => true | _ => false end
  | None => false
  end.

Definition terminal_matcher (c : Conversation) (tn : TreeNode) : bool :=
  match message (node tn) with
  | ExpectClose => true
  | ExpectAlert _ _ =>
      match next_sibling tn with
      | Some s => is_expect_close c s
      | None => false
      end
  | _ => false
  end.

Fixpoint paths_end_in_terminal (c : Conversation) (fuel : nat) (id : nat) : bool :=
  match fuel with
  | 0 => false
  | S fuel' =>
      match nodes c !! id with
      | None => false
      | Some tn =>
          match children tn with
          | [] => terminal_matcher c tn
          | cs => forallb (paths_end_in_terminal c fuel') cs
          end
      end
  end.

Definition root_is_connect (c : Conversation) : bool :=
  match nodes c !! root c with
  | Some tn => match message (node tn) with Connect _ _ => true | _ => false end
  | None => false
  end.

Definition well_terminated (c : Conversation) : bool :=
  root_is_connect c && paths_end_in_terminal c (length (nodes c)) (root c).

(** ** Checks on names and trees *)

(** The order in which names are sorted to look for duplicates. *)
Module NameOrder <: TotalLeBool.
Definition t := string.
Definition leb (a b : string) : bool :=
  match String_as_OT.compare a b with
  | Gt => false
  | _ => true
  end.
Lemma leb_total (a b : string) : leb a b = true ∨ leb b a = true.
Proof.
  unfold leb. destruct (String_as_OT.compare_spec a b) as [Heq|Hlt|Hgt]; auto.
  right. unfold String_as_OT.lt in Hgt. by rewrite Hgt.
Qed.
End NameOrder.

Module NameSort := Sort NameOrder.

(** Whether each name is strictly below the next one. *)
Fixpoint increasing (l : list string) : bool :=
  match l with
  | x :: (y :: _) as l' =>
      match String_as_OT.compare x y with
      | Lt => increasing l'
      | _ => false
      end
  | _ => true
  end.

(** The names of [Scenario.names] as a function of what the flags
    decide: whether the sweeps under [if not ext] are made, and which
    values the two sweeps with a [continue] skip. *)
Definition names_with (plain : bool) (skip_cipher_suites skip_compression : N → bool) :
    list string :=
  ["sanity"]
  ++ ["sanity w/ext"]
  ++ ((λ i, "Client Hello type fuzz to " +:+ str (N.lxor 1 i)) <$> range 1 0x100)
  ++ (if plain then
        (λ i, "session ID len fuzz to " +:+ str i) <$> range 1 0x100
      else [])
  ++ ((λ i, "session ID len fuzz to " +:+ str i +:+ " w/ext") <$> range 1 0x100)
  ++ (if plain then
        ((λ i, "cipher suites len fuzz to " +:+ str (N.lxor 4 i)) <$> range 1 0x100)
        ++ (i ← [1; 2; 4; 8; 16; 128; 254; 255]%N;
            (λ j, "cipher suites len fuzz to " +:+ str (N.shiftl i 8 + j))
              <$> range 0 0x100)
      else [])
  ++ ((λ i, "cipher suites len fuzz to " +:+ str (N.lxor 4 i) +:+ " w/ext")
        <$> filter (λ i, skip_cipher_suites i = false) (range 1 0x100))
  ++ (i ← [1; 2; 4; 8; 16; 128; 254; 255]%N;
      (λ j, "cipher suites len fuzz to " +:+ str (N.shiftl i 8 + j) +:+ " w/ext")
        <$> range 0 0x100)
  ++ (if plain then
        (λ i, "compression methods len fuzz to " +:+ str (N.lxor 1 i))
          <$> range 1 0x100
      else [])
  ++ ((λ i, "compression methods len fuzz to " +:+ str (N.lxor 1 i) +:+ " w/ext")
        <$> filter (λ i, skip_compression i = false) (range 1 0x100))
  ++ ((λ i, "extensions len fuzz to " +:+ str (N.lxor 5 i)) <$> range 1 0x100)
  ++ (i ← [1; 2; 4; 8; 16; 254; 255]%N;
      (λ j, "extensions len fuzz to " +:+ str (N.shiftl i 8 + j)) <$> range 0 0x100).

(** The arguments given with an option, in order: all [arg] with
    [(opt, arg)] among [opts]. *)
Definition option_args (opt : string) (opts : list (string * string)) : list string :=
  (filter (λ oa, oa.1 = opt) opts).*2.

(** The nodes of a conversation that [fuzz_message] has wrapped. *)
Definition mutated_nodes (c : Conversation) : list TreeNode :=
  filter (λ tn, is_Some (mutation (node tn))) (nodes c).

Definition is_client_hello (m : Message) : bool :=
  match m with
  | ClientHelloGenerator _ _ _ => true
  | _ => false
  end.

(** Whether the tree is a chain: node [i] has the single child [i + 1],
    except the last node of the chain, which has none; nodes after the
    chain are siblings without children. *)
Fixpoint is_chain (tree : list TreeNode) (i : nat) (rest : list TreeNode) : bool :=
  match rest with
  | [] => true
  | tn :: rest' =>
      match children tn with
      | [] => forallb (λ tn', bool_decide (children tn' = [])) rest'
      | [c] => bool_decide (c = S i) && is_chain tree (S i) rest'
      | _ => false
      end
  end.

(** * Proofs *)

(** ** Dictionaries *)

Section DictFacts.
Context {K V : Type} `{EqDecision K}.
Implicit Types (k : K) (v : V) (d l : list (K * V)).

Lemma keys_set k v d :
  Dict.keys (Dict.set k v d)
  = if decide (k ∈ Dict.keys d) then Dict.keys d else Dict.keys d ++ [k].
Proof.
  unfold Dict.keys. induction d as [|[k' v'] d IH]; [done|].
  cbn [Dict.set]. destruct (decide (k' = k)) as [->|Hne].
  - rewrite decide_True by set_solver. done.
  - rewrite fmap_cons, IH, fmap_cons. cbn [fst].
    destruct (decide (k ∈ d.*1)) as [Hin|Hnin].
    + rewrite decide_True by set_solver. done.
    + rewrite decide_False by set_solver. done.
Qed.

Lemma elem_of_keys_set k k' v d :
  k' ∈ Dict.keys (Dict.set k v d) ↔ k' = k ∨ k' ∈ Dict.keys d.
Proof. rewrite keys_set. case_decide; set_solver. Qed.

Lemma NoDup_keys_set k v d :
  NoDup (Dict.keys d) → NoDup (Dict.keys (Dict.set k v d)).
Proof.
  intros Hd. rewrite keys_set. case_decide; [done|].
  apply NoDup_app. split_and!; [done| |apply NoDup_singleton].
  intros x Hx Hx'. apply list_elem_of_singleton in Hx'. by subst.
Qed.

Lemma get_set_eq k v d : Dict.get k (Dict.set k v d) = Some v.
Proof.
  induction d as [|[k' v'] d IH]; simpl.
  - by rewrite decide_True.
  - destruct (decide (k' = k)) as [->|Hne]; simpl.
    + by rewrite decide_True.
    + by rewrite decide_False.
Qed.

Lemma get_set_ne k k' v d : k ≠ k' → Dict.get k' (Dict.set k v d) = Dict.get k' d.
Proof.
  intros Hne. induction d as [|[k0 v0] d IH]; simpl.
  - by rewrite decide_False.
  - destruct (decide (k0 = k)) as [->|Hne0]; simpl.
    + by rewrite !decide_False.
    + by rewrite IH.
Qed.

Lemma elem_of_set kv k v d :
  kv ∈ Dict.set k v d → kv = (k, v) ∨ kv ∈ d.
Proof.
  induction d as [|[k' v'] d IH]; simpl.
  - set_solver.
  - destruct (decide (k' = k)) as [->|Hne]; set_solver.
Qed.

Lemma get_Some_elem_of k v d : Dict.get k d = Some v → (k, v) ∈ d.
Proof.
  induction d as [|[k' v'] d IH]; simpl; [done|].
  destruct (decide (k' = k)) as [->|Hne].
  - intros [= ->]. set_solver.
  - set_solver.
Qed.

Lemma get_is_Some k d : k ∈ Dict.keys d → is_Some (Dict.get k d).
Proof.
  unfold Dict.keys. induction d as [|[k' v'] d IH]; simpl.
  - set_solver.
  - destruct (decide (k' = k)) as [->|Hne]; [eauto|]. set_solver.
Qed.

Lemma get_None k d : k ∉ Dict.keys d → Dict.get k d = None.
Proof.
  unfold Dict.keys. induction d as [|[k' v'] d IH]; simpl; [done|].
  destruct (decide (k' = k)) as [->|Hne]; set_solver.
Qed.

Lemma assign_all_app d l1 l2 :
  Dict.assign_all d (l1 ++ l2) = Dict.assign_all (Dict.assign_all d l1) l2.
Proof. apply foldl_app. Qed.

Lemma assign_all_snoc d l k v :
  Dict.assign_all d (l ++ [(k, v)]) = Dict.set k v (Dict.assign_all d l).
Proof. by rewrite assign_all_app. Qed.

Lemma elem_of_keys_assign_all k l : ∀ d,
  k ∈ Dict.keys (Dict.assign_all d l) ↔ k ∈ Dict.keys d ∨ k ∈ l.*1.
Proof.
  induction l as [|[k1 v1] l IH]; intros d; simpl.
  - set_solver.
  - rewrite IH, elem_of_keys_set. set_solver.
Qed.

Lemma NoDup_keys_assign_all l : ∀ d,
  NoDup (Dict.keys d) → NoDup (Dict.keys (Dict.assign_all d l)).
Proof.
  induction l as [|[k1 v1] l IH]; intros d Hd; simpl; [done|].
  by apply IH, NoDup_keys_set.
Qed.

Lemma elem_of_assign_all kv l : ∀ d,
  kv ∈ Dict.assign_all d l → kv ∈ d ∨ kv ∈ l.
Proof.
  induction l as [|[k1 v1] l IH]; intros d; simpl.
  - set_solver.
  - intros Hin. apply IH in Hin as [Hin|Hin]; [|set_solver].
    apply elem_of_set in Hin. set_solver.
Qed.

(** A key reads as its last assignment. *)
Lemma get_assign_all k l : ∀ d,
  Dict.get k (Dict.assign_all d l)
  = match Dict.get k (reverse l) with
    | Some v => Some v
    | None => Dict.get k d
    end.
Proof.
  induction l as [|[k1 v1] l IH] using rev_ind; intros d.
  - done.
  - rewrite assign_all_snoc, reverse_snoc. simpl.
    destruct (decide (k1 = k)) as [->|Hne].
    + apply get_set_eq.
    + rewrite get_set_ne by done. apply IH.
Qed.

End DictFacts.

(** The loops that fill a dictionary are runs of assignments. *)
Lemma for_in_set {A V : Type} (l : list A) (f : A → string) (g : A → V) d :
  Scenario.for_in l (λ i, Dict.set (f i) (g i)) d
  = Dict.assign_all d ((λ i, (f i, g i)) <$> l).
Proof.
  unfold Scenario.for_in, Dict.assign_all. revert d.
  induction l as [|i l IH]; intros d; simpl; [done|]. apply IH.
Qed.

Lemma for_in_skip_set {A V : Type} (l : list A) (skip : A → bool) (f : A → string) (g : A → V) d :
  Scenario.for_in l (λ i d, if skip i then d else Dict.set (f i) (g i) d) d
  = Dict.assign_all d ((λ i, (f i, g i)) <$> filter (λ i, skip i = false) l).
Proof.
  unfold Scenario.for_in, Dict.assign_all. revert d.
  induction l as [|i l IH]; intros d; simpl; [done|].
  rewrite IH. destruct (skip i) eqn:Hs.
  - rewrite filter_cons_False by (rewrite Hs; done). done.
  - rewrite filter_cons_True by done. done.
Qed.

Lemma for_in_for_in_set {A B V : Type} (l1 : list A) (l2 : list B)
    (f : A → B → string) (g : A → B → V) d :
  Scenario.for_in l1 (λ i, Scenario.for_in l2 (λ j, Dict.set (f i j) (g i j))) d
  = Dict.assign_all d (i ← l1; (λ j, (f i j, g i j)) <$> l2).
Proof.
  revert d. induction l1 as [|i l1 IH]; intros d; [done|].
  change (Scenario.for_in (i :: l1) ?body d)
    with (Scenario.for_in l1 body (body i d)).
  rewrite IH. cbv beta. rewrite for_in_set.
  change (i :: l1) with ([i] ++ l1). rewrite bind_app, assign_all_app.
  simpl. by rewrite app_nil_r.
Qed.

Lemma if_assign_all {V : Type} (c : bool) (l : list (string * V)) d :
  (if c then Dict.assign_all d l else d) = Dict.assign_all d (if c then l else []).
Proof. by destruct c. Qed.

(** ** The mutation engine *)

Lemma mutate_all_spec entries : ∀ data,
  NoDup entries.*1 →
  (∀ o op, (o, op) ∈ entries → o < length data) →
  ∃ out, Mutation.mutate_all entries data = Returned out
    ∧ length out = length data
    ∧ (∀ o op, (o, op) ∈ entries → out !! o = Mutation.apply_op op <$> data !! o)
    ∧ (∀ o, o ∉ entries.*1 → out !! o = data !! o).
Proof.
  induction entries as [|[o1 op1] rest IH]; intros data Hnd Hin.
  - exists data. split_and!; [done|done|set_solver|done].
  - apply NoDup_cons in Hnd as [Hfresh Hnd]. simpl in Hfresh, Hnd.
    assert (Ho1 : o1 < length data) by (apply (Hin o1 op1); set_solver).
    destruct (lookup_lt_is_Some_2 data o1 Ho1) as [b Hb].
    simpl. unfold Mutation.mutate_at. simpl. rewrite Hb.
    destruct (IH (<[o1 := Mutation.apply_op op1 b]> data) Hnd)
      as (out & Hrun & Hlen & Hat & Hframe).
    { intros o op Ho. rewrite length_insert. apply (Hin o op). set_solver. }
    exists out. split_and!.
    + done.
    + by rewrite Hlen, length_insert.
    + intros o op Ho. apply elem_of_cons in Ho as [[= -> ->]|Ho].
      * rewrite Hframe by done. rewrite list_lookup_insert_eq by done.
        by rewrite Hb.
      * rewrite (Hat o op Ho). rewrite list_lookup_insert_ne; [done|].
        intros ->. apply Hfresh. apply list_elem_of_fmap. by exists (o, op).
    + intros o Ho. rewrite Hframe by set_solver.
      rewrite list_lookup_insert_ne; [done|]. set_solver.
Qed.

Lemma mutate_spec (data : list N) (mutation : gmap nat Mutation.Op) :
  (∀ o op, mutation !! o = Some op → o < length data) →
  ∃ out, Mutation.mutate data mutation = Returned out
    ∧ length out = length data
    ∧ (∀ o, out !! o
            = match mutation !! o with
              | Some op => Mutation.apply_op op <$> data !! o
              | None => data !! o
              end).
Proof.
  intros Hbound. unfold Mutation.mutate.
  destruct (mutate_all_spec (map_to_list mutation) data)
    as (out & Hrun & Hlen & Hat & Hframe).
  - apply NoDup_fst_map_to_list.
  - intros o op Ho. apply elem_of_map_to_list in Ho. eauto.
  - exists out. split_and!; [done|done|].
    intros o. destruct (mutation !! o) as [op|] eqn:Ho.
    + apply Hat. by apply elem_of_map_to_list.
    + apply Hframe. intros Hin.
      apply list_elem_of_fmap in Hin as ([o' op] & -> & Hin).
      apply elem_of_map_to_list in Hin. simpl in Ho. congruence.
Qed.

(** C5. For every generator, whatever its serialized message, and every
    mutation set passed to [fuzz_message] whose offsets lie within that
    message: what the fuzzed generator writes has the length of the
    input, equals the input at every offset the set does not name, holds
    [input XOR value] at every offset with an xors entry and [value] at
    every offset with a substitutions entry; and writing twice with the
    same mutation set and input gives the same output. *)
Theorem fuzz_message_frame_effect (serialize : Message → list N) (gen : Node)
    (mutation : gmap nat Mutation.Op) :
  (∀ o op, mutation !! o = Some op → o < length (serialize (message gen))) →
  ∃ out, write serialize (fuzz_message gen mutation) = Returned out
    ∧ length out = length (serialize (message gen))
    ∧ (∀ o, mutation !! o = None → out !! o = serialize (message gen) !! o)
    ∧ (∀ o v, mutation !! o = Some (Mutation.Xor v) →
         out !! o = (λ b, N.lxor b v) <$> serialize (message gen) !! o)
    ∧ (∀ o v, mutation !! o = Some (Mutation.Subst v) → out !! o = Some v)
    ∧ (∀ r1 r2, write serialize (fuzz_message gen mutation) = r1 →
         write serialize (fuzz_message gen mutation) = r2 → r1 = r2).
Proof.
  intros Hbound. unfold write, fuzz_message. simpl.
  destruct (mutate_spec _ _ Hbound) as (out & Hrun & Hlen & Hout).
  exists out. split_and!; [done|done| | | |congruence].
  - intros o Ho. by rewrite Hout, Ho.
  - intros o v Ho. by rewrite Hout, Ho.
  - intros o v Ho. rewrite Hout, Ho. simpl.
    destruct (lookup_lt_is_Some_2 _ o (Hbound _ _ Ho)) as [b ->]. done.
Qed.

Lemma fuzz_message_frame_effect_witness :
  ∃ out, write (λ _, [1; 0; 3; 4]%N)
           (fuzz_message ClientKeyExchangeGenerator
              (Mutation.xors {[0 := 5%N]} ∪ Mutation.substitutions {[1 := 37%N]}))
         = Returned out
    ∧ out = [4; 37; 3; 4]%N.
Proof.
  destruct (fuzz_message_frame_effect (λ _, [1; 0; 3; 4]%N) ClientKeyExchangeGenerator
              (Mutation.xors {[0 := 5%N]} ∪ Mutation.substitutions {[1 := 37%N]}))
    as (out & Hrun & _).
  - intros o op Ho. unfold Mutation.xors, Mutation.substitutions in Ho.
    rewrite !map_fmap_singleton in Ho.
    apply lookup_union_Some_raw in Ho as [Ho|[_ Ho]];
      apply lookup_singleton_Some in Ho as [<- _]; simpl; lia.
  - exists out. split; [done|]. vm_compute in Hrun. congruence.
Defined.

(** ** The execution loop *)

Section LoopFacts.
Context `{Platform}.
Implicit Types (st : HState) (ef : gmap string (option string)).

Lemma HState_eq st st' :
  good st = good st' → bad st = bad st' → xfail st = xfail st' →
  xpass st = xpass st' → failed st = failed st' → xpassed st = xpassed st' →
  stdout st = stdout st' → world st = world st' → st = st'.
Proof. destruct st, st'; simpl; intros; by subst. Qed.

(** One round of the loop returns, whatever the runner did, and books
    the run result the specification describes. *)
Lemma run_test_booked ef c_name c_test st :
  run_test ef (c_name, c_test) st
  = (Returned tt,
     booked ef
       (mkRunResult c_name
          (classify ef c_name (runner_run c_test (world st)).1)
          (runner_run c_test (world st)).1)
       (runner_run c_test (world st)).2 st).
Proof.
  unfold run_test, booked, classify, lines_of.
  unfold mbind, M_bind, mret, M_ret, try_except, run_runner, print,
    incr_good, incr_bad, incr_xfail, incr_xpass, failed_append, xpassed_append,
    modify, with_stdout.
  simpl. destruct (runner_run c_test (world st)) as [[e|] w]; simpl;
    destruct (ef !! c_name) as [[required|]|]; simpl;
    try destruct (str_in required (exc_str e)); simpl;
    f_equal; apply HState_eq; simpl;
    rewrite ?Nat.add_0_r, ?app_nil_r, <- ?app_assoc; done.
Qed.

Lemma count_cons o r results :
  count o (r :: results) = (if decide (outcome r = o) then 1 else 0) + count o results.
Proof.
  unfold count. destruct (decide (outcome r = o)).
  - by rewrite filter_cons_True.
  - by rewrite filter_cons_False.
Qed.

Lemma names_of_cons o r results :
  names_of o (r :: results)
  = (if decide (outcome r = o) then [name r] else []) ++ names_of o results.
Proof.
  unfold names_of. destruct (decide (outcome r = o)).
  - by rewrite filter_cons_True.
  - by rewrite filter_cons_False.
Qed.

(** The loop over the tests returns, and leaves the counters, the lists,
    the output and the world as the run results of all its tests say. *)
Lemma for_each_run_test ef tests : ∀ st,
  for_each tests (run_test ef) st
  = (Returned tt,
     booked_all ef (run_results ef tests (world st)) (world_after tests (world st)) st).
Proof.
  induction tests as [|[c_name c_test] tests IH]; intros st.
  - simpl. unfold mret, M_ret. f_equal. unfold booked_all. simpl.
    apply HState_eq; simpl; rewrite ?Nat.add_0_r, ?app_nil_r; done.
  - cbn [for_each]. unfold mbind, M_bind at 1.
    rewrite run_test_booked, IH. f_equal. cbn [run_results world_after].
    destruct (runner_run c_test (world st)) as [exp w] eqn:Hrun.
    unfold booked_all, booked. cbn [good bad xfail xpass failed xpassed stdout world fst snd].
    rewrite !count_cons, !names_of_cons. cbn [outcome name].
    apply HState_eq; cbn [good bad xfail xpass failed xpassed stdout world];
      rewrite ?bind_cons, ?app_assoc; try done; try lia.
Qed.

Lemma length_run_results ef tests : ∀ w,
  length (run_results ef tests w) = length tests.
Proof.
  induction tests as [|[c_name c_test] tests IH]; intros w; simpl; [done|].
  destruct (runner_run c_test w). simpl. by rewrite IH.
Qed.

Lemma names_run_results ef tests : ∀ w,
  name <$> run_results ef tests w = tests.*1.
Proof.
  induction tests as [|[c_name c_test] tests IH]; intros w; simpl; [done|].
  destruct (runner_run c_test w). simpl. by rewrite IH.
Qed.

(** Each run result falls into exactly one of the four outcomes. *)
Lemma count_total (results : list RunResult) :
  count PASS results + count FAIL results + count XFAIL results + count XPASS results
  = length results.
Proof.
  induction results as [|r results IH]; [done|].
  rewrite !count_cons. simpl. destruct (outcome r); simpl; lia.
Qed.

Lemma count_pos_iff o (results : list RunResult) :
  count o results ≠ 0 ↔ ∃ r, r ∈ results ∧ outcome r = o.
Proof.
  induction results as [|r results IH].
  - split; [done|]. intros (r & Hr & _). by apply elem_of_nil in Hr.
  - rewrite count_cons. destruct (decide (outcome r = o)) as [Ho|Ho].
    + split; [|simpl; lia]. intros _. exists r. split; [left|done].
    + simpl. rewrite IH. split.
      * intros (r' & Hr' & Ho'). exists r'. split; [by right|done].
      * intros (r' & Hr' & Ho'). apply elem_of_cons in Hr' as [->|Hr']; [done|].
        by exists r'.
Qed.

End LoopFacts.

(** ** The scenario population *)

Lemma set_assign_all {V : Type} (k : string) (v : V) d :
  Dict.set k v d = Dict.assign_all d [(k, v)].
Proof. done. Qed.

(** The population is what its assignments, taken in order, leave. *)
Lemma conversations_assignments (s : Setup) :
  Scenario.conversations s = Dict.assign_all [] (Scenario.assignments s).
Proof.
  unfold Scenario.conversations, Scenario.assignments.
  destruct (Scenario.not_ext s); cbv beta iota zeta;
    rewrite !for_in_for_in_set, !for_in_skip_set, !for_in_set;
    rewrite !set_assign_all;
    rewrite <- !assign_all_app;
    rewrite <- ?app_assoc, ?app_nil_l; reflexivity.
Qed.

Lemma assignments_names (s : Setup) :
  (Scenario.assignments s).*1 = Scenario.names s.
Proof.
  unfold Scenario.assignments, Scenario.names.
  destruct (Scenario.not_ext s);
    rewrite ?fmap_app, ?list_fmap_bind, <- ?list_fmap_compose; reflexivity.
Qed.

Lemma has_name_elem_of (name : string) (names : list string) :
  Scenario.has_name name names = true ↔ name ∈ names.
Proof.
  unfold Scenario.has_name. rewrite existsb_exists. split.
  - intros (x & Hx & Heq). apply String.eqb_eq in Heq as ->.
    by apply list_elem_of_In.
  - intros Hin. exists name. split; [by apply list_elem_of_In|apply String.eqb_refl].
Qed.

(** A name is a key of the population exactly when some assignment uses it. *)
Lemma elem_of_keys_conversations (s : Setup) (name : string) :
  name ∈ Dict.keys (Scenario.conversations s)
  ↔ Scenario.has_name name (Scenario.names s) = true.
Proof.
  rewrite conversations_assignments, elem_of_keys_assign_all, assignments_names.
  rewrite has_name_elem_of. split; [|by right].
  intros [Hin|Hin]; [|done]. by apply elem_of_nil in Hin.
Qed.

Lemma NoDup_keys_conversations (s : Setup) :
  NoDup (Dict.keys (Scenario.conversations s)).
Proof.
  rewrite conversations_assignments. apply NoDup_keys_assign_all. constructor.
Qed.

Lemma elem_of_conversations (s : Setup) kv :
  kv ∈ Scenario.conversations s → kv ∈ Scenario.assignments s.
Proof.
  rewrite conversations_assignments. intros Hin.
  apply elem_of_assign_all in Hin as [Hin|Hin]; [|done].
  by apply elem_of_nil in Hin.
Qed.

Lemma get_assign_all_notin {V : Type} (k : string) (l : list (string * V)) : ∀ d,
  k ∉ l.*1 → Dict.get k (Dict.assign_all d l) = Dict.get k d.
Proof.
  induction l as [|[k1 v1] l IH]; intros d Hk; simpl; [done|].
  rewrite IH by set_solver. apply get_set_ne. set_solver.
Qed.

Lemma setup_cases (P : Setup → Prop) :
  (∀ h p c, P (mkSetup h p c false false)) →
  (∀ h p c, P (mkSetup h p c false true)) →
  (∀ h p c, P (mkSetup h p c true false)) →
  (∀ h p c, P (mkSetup h p c true true)) →
  ∀ s, P s.
Proof. intros H00 H01 H10 H11 [h p c [] []]; auto. Qed.

Lemma assignments_head (s : Setup) :
  ∃ tl, Scenario.assignments s = ("sanity", Scenario.sanity s) :: tl.
Proof. eexists. reflexivity. Qed.

(** The sanity conversation is in the population under its name. *)
Lemma get_sanity (s : Setup) :
  Dict.get "sanity" (Scenario.conversations s) = Some (Scenario.sanity s).
Proof.
  destruct (assignments_head s) as [tl Ha].
  assert (Hn : tail (Scenario.names s) = tl.*1).
  { rewrite <- assignments_names, Ha. done. }
  rewrite conversations_assignments, Ha.
  change (("sanity", Scenario.sanity s) :: tl)
    with ([("sanity", Scenario.sanity s)] ++ tl).
  rewrite assign_all_app, get_assign_all_notin; [done|].
  rewrite <- Hn, <- has_name_elem_of. clear. revert s.
  apply setup_cases; intros h p c Hb; vm_compute in Hb; discriminate.
Qed.

(** Every mutated conversation ends in [ExpectClose], whatever it sends
    and whichever alert it expects. *)
Lemma fuzzed_well_terminated (s : Setup) (hello_gen : Message)
    (mutation : gmap nat Mutation.Op) (alert : Message) :
  well_terminated (Scenario.fuzzed s hello_gen mutation alert) = true.
Proof. reflexivity. Qed.

Lemma sanity_well_terminated (s : Setup) :
  well_terminated (Scenario.sanity s) = true.
Proof.
  unfold Scenario.sanity, Scenario.full_handshake.
  destruct (dhe s); reflexivity.
Qed.

Lemma sanity_w_ext_well_terminated (s : Setup) :
  well_terminated (Scenario.sanity_w_ext s) = true.
Proof.
  unfold Scenario.sanity_w_ext, Scenario.full_handshake.
  destruct (dhe s); reflexivity.
Qed.

Ltac forall_assignments :=
  repeat lazymatch goal with
    | |- Forall _ [] => apply Forall_nil_2
    | |- Forall _ (_ ++ _) => apply Forall_app_2
    | |- Forall _ (_ :: _) => apply Forall_cons_2
    | |- Forall _ (_ <$> _) => apply Forall_fmap
    | |- Forall _ (_ ≫= _) => apply Forall_bind
    | |- Forall _ _ => apply Forall_true; intros ?
    | |- (_ ∘ _) _ => unfold compose at 1; cbn beta
    end;
  cbn [snd fst].

Lemma assignments_well_terminated (s : Setup) :
  Forall (λ kv, well_terminated kv.2 = true) (Scenario.assignments s).
Proof.
  unfold Scenario.assignments. destruct (Scenario.not_ext s);
    forall_assignments;
    lazymatch goal with
    | |- well_terminated (Scenario.sanity _) = _ => apply sanity_well_terminated
    | |- well_terminated (Scenario.sanity_w_ext _) = _ =>
        apply sanity_w_ext_well_terminated
    | |- well_terminated (Scenario.fuzzed _ _ _ _) = _ =>
        apply fuzzed_well_terminated
    end.
Qed.

(** C6. Every conversation in the population, the sanity conversations
    and every mutated variant, has a [Connect] node as its root, and
    every path from the root to a leaf ends in [ExpectClose] or in an
    [ExpectAlert] whose [next_sibling] is [ExpectClose]. *)
Theorem population_well_terminated (s : Setup) :
  Forall (λ kv, well_terminated kv.2 = true) (Scenario.conversations s).
Proof.
  apply Forall_forall. intros kv Hin. apply elem_of_conversations in Hin.
  revert kv Hin. apply Forall_forall, assignments_well_terminated.
Qed.

(** The sanity conversations end in an [ExpectAlert] without children
    whose sibling is [ExpectClose]; the mutated ones end in [ExpectClose]. *)
Example sanity_last_nodes :
  let c := Scenario.sanity (mkSetup "localhost" 4433 [47%Z] false false) in
  (message ∘ node <$> nodes c !! 13) = Some (ExpectAlert None None)
  ∧ (children <$> nodes c !! 13) = Some []
  ∧ (next_sibling <$> nodes c !! 13) = Some (Some 14)
  ∧ (message ∘ node <$> nodes c !! 14) = Some ExpectClose.
Proof. vm_compute. done. Qed.

Lemma elem_of_range (a b : nat) (i : N) :
  i ∈ range a b ↔ (N.of_nat a ≤ i < N.of_nat b)%N.
Proof.
  unfold range. rewrite list_elem_of_fmap. split.
  - intros (n & -> & Hn). apply elem_of_seq in Hn. lia.
  - intros Hi. exists (N.to_nat i). split; [lia|]. apply elem_of_seq. lia.
Qed.

Lemma sweep_matches_elem_of names name_of skip values i :
  Scenario.sweep_matches names name_of skip values = true →
  i ∈ values →
  name_of i ∈ names ↔ skip i = false.
Proof.
  unfold Scenario.sweep_matches. rewrite forallb_forall.
  intros Hall Hi. apply list_elem_of_In, Hall, Bool.eqb_prop in Hi.
  rewrite <- has_name_elem_of, Hi. by destruct (skip i).
Qed.

(** For each value of the sweep over the cipher suites length with
    extensions, its name is in the population unless the value is
    skipped. *)
Lemma cipher_suites_len_table (s : Setup) :
  Scenario.sweep_matches (Scenario.names s)
    (λ i, "cipher suites len fuzz to " +:+ str (N.lxor 4 i) +:+ " w/ext")
    (Scenario.skip_cipher_suites_len s) (range 1 256) = true.
Proof.
  revert s. apply setup_cases; intros h p c; vm_cast_no_check (eq_refl true).
Qed.

Lemma compression_len_table (s : Setup) :
  Scenario.sweep_matches (Scenario.names s)
    (λ i, "compression methods len fuzz to " +:+ str (N.lxor 1 i) +:+ " w/ext")
    (Scenario.skip_compression_len s) (range 1 256) = true.
Proof.
  revert s. apply setup_cases; intros h p c; vm_cast_no_check (eq_refl true).
Qed.

(** C7. For every setting of the dhe and ems flags and every XOR value
    [i] from 1 to 255: the conversation the sweep over the cipher suites
    length with extensions would name for [i] is in the population
    unless dhe is set without ems and [i] is 56, or both are set and [i]
    is 60; the conversation the sweep over the compression methods length
    with extensions would name for [i] is in the population unless
    [1 XOR i] is 8 (neither flag), 62 (dhe only), 66 (both) or 12 (ems
    only). *)
Theorem documented_exclusions (s : Setup) (i : N) :
  (1 ≤ i ≤ 255)%N →
  (("cipher suites len fuzz to " +:+ str (N.lxor 4 i) +:+ " w/ext")
     ∈ Dict.keys (Scenario.conversations s)
   ↔ ¬ (dhe s = true ∧ ems s = false ∧ i = 56%N)
     ∧ ¬ (dhe s = true ∧ ems s = true ∧ i = 60%N))
  ∧ (("compression methods len fuzz to " +:+ str (N.lxor 1 i) +:+ " w/ext")
       ∈ Dict.keys (Scenario.conversations s)
     ↔ N.lxor 1 i ≠ match dhe s, ems s with
                    | false, false => 8%N
                    | true, false => 62%N
                    | true, true => 66%N
                    | false, true => 12%N
                    end).
Proof.
  intros Hi. assert (Hin : i ∈ range 1 256) by (apply elem_of_range; lia).
  split.
  - rewrite elem_of_keys_conversations, has_name_elem_of.
    rewrite (sweep_matches_elem_of _ _ _ _ i (cipher_suites_len_table s) Hin).
    unfold Scenario.skip_cipher_suites_len.
    destruct (dhe s), (ems s); simpl; repeat case_bool_decide; simpl;
      (split;
       [ intros Hs; try discriminate Hs; split; intros (? & ? & ?); congruence
       | intros [H1 H2]; try reflexivity; exfalso;
         first [apply H1; done | apply H2; done] ]).
  - rewrite elem_of_keys_conversations, has_name_elem_of.
    rewrite (sweep_matches_elem_of _ _ _ _ i (compression_len_table s) Hin).
    unfold Scenario.skip_compression_len.
    destruct (dhe s), (ems s); simpl; repeat case_bool_decide; simpl;
      (split;
       [ intros Hs; try discriminate Hs; congruence
       | intros Hne; try reflexivity; exfalso; by apply Hne ]).
Qed.

Lemma documented_exclusions_witness :
  (("cipher suites len fuzz to " +:+ str (N.lxor 4 56) +:+ " w/ext")
     ∉ Dict.keys (Scenario.conversations (mkSetup "localhost" 4433 [49171%Z] true false)))
  ∧ (("compression methods len fuzz to " +:+ str (N.lxor 1 63) +:+ " w/ext")
     ∉ Dict.keys (Scenario.conversations (mkSetup "localhost" 4433 [49171%Z] true false))).
Proof.
  split; intros Hin.
  - apply (documented_exclusions (mkSetup "localhost" 4433 [49171%Z] true false) 56) in Hin;
      [|lia]. simpl in Hin. tauto.
  - apply (documented_exclusions (mkSetup "localhost" 4433 [49171%Z] true false) 63) in Hin;
      [|lia]. simpl in Hin. apply Hin. reflexivity.
Defined.

(** ** The session ID length probe *)

(** A single substitution within the message replaces that byte. *)
Lemma mutate_substitution (data : list N) (o : nat) (v : N) :
  o < length data →
  Mutation.mutate data (Mutation.substitutions {[o := v]}) = Returned (<[o := v]> data).
Proof.
  intros Ho. unfold Mutation.mutate, Mutation.substitutions.
  rewrite map_fmap_singleton, map_to_list_singleton. simpl.
  unfold Mutation.mutate_at. simpl.
  destruct (lookup_lt_is_Some_2 data o Ho) as [b ->]. done.
Qed.

Lemma get_session_id_len_37 (s : Setup) :
  dhe s = false → ems s = false →
  Dict.get "session ID len fuzz to 37" (Scenario.conversations s)
  = Some (Scenario.fuzzed s (Scenario.hello_scsv s)
            (Mutation.substitutions {[38 := 37%N]}) Scenario.decode_error_alert).
Proof.
  intros Hd He. destruct s as [h p c d e]. cbn [dhe ems] in Hd, He. subst d e.
  rewrite conversations_assignments, get_assign_all.
  vm_cast_no_check
    (eq_refl (Some (Scenario.fuzzed (mkSetup h p c false false)
                      (Scenario.hello_scsv (mkSetup h p c false false))
                      (Mutation.substitutions {[38 := 37%N]})
                      Scenario.decode_error_alert))).
Qed.

(** The probe as a tree: connect, the ClientHello with byte 38 replaced
    by 37, a fatal decode_error alert, the close of the connection. *)
Lemma session_id_len_37_tree (s : Setup) :
  Scenario.fuzzed s (Scenario.hello_scsv s)
    (Mutation.substitutions {[38 := 37%N]}) Scenario.decode_error_alert
  = mkConversation 0
      [ mkTreeNode (Connect (host s) (port s)) [1] None;
        mkTreeNode
          (mkNode (Scenario.hello_scsv s)
             (Some (Mutation.substitutions {[38 := 37%N]}))) [2] None;
        mkTreeNode
          (ExpectAlert (Some AlertLevel.fatal) (Some AlertDescription.decode_error))
          [3] None;
        mkTreeNode ExpectClose [] None ].
Proof. reflexivity. Qed.

(** Against a target that answers with a fatal decode_error alert and
    then closes, the runner sends the mutated ClientHello and raises
    nothing. *)
Lemma run_session_id_len_37 (serialize : Message → list N) (s : Setup) :
  38 < length (serialize (Scenario.hello_scsv s)) →
  Runner.run serialize
    (Scenario.fuzzed s (Scenario.hello_scsv s)
       (Mutation.substitutions {[38 := 37%N]}) Scenario.decode_error_alert)
    [Runner.InAlert AlertLevel.fatal AlertDescription.decode_error; Runner.InClose]
  = (None,
     Runner.mkConnection [] [<[38 := 37%N]> (serialize (Scenario.hello_scsv s))]).
Proof.
  intros Hlen. rewrite session_id_len_37_tree. unfold Runner.run.
  cbn [nodes root length Runner.walk lookup list_lookup node message
       Runner.is_matcher children next_sibling Runner.inbound Runner.sent].
  unfold write. cbn [mutation message].
  rewrite (mutate_substitution _ _ _ Hlen). reflexivity.
Qed.

(** C8, as the code has it. When neither dhe nor ems is set, the
    population contains a conversation named 'session ID len fuzz to 37':
    it connects, sends the ClientHello with the byte at offset 38
    replaced by 37, expects a fatal alert with description decode_error
    and then the close of the connection. For a ClientHello longer than 38
    bytes and a target that answers with exactly that alert and then
    closes, the runner transmits the ClientHello changed at offset 38
    only and raises nothing, which the loop classifies as PASS unless the
    name was declared an expected failure. *)
Theorem session_id_len_probe (s : Setup) (serialize : Message → list N) :
  dhe s = false → ems s = false →
  38 < length (serialize (Scenario.hello_scsv s)) →
  ∃ c sent,
    Dict.get "session ID len fuzz to 37" (Scenario.conversations s) = Some c
    ∧ c = mkConversation 0
            [ mkTreeNode (Connect (host s) (port s)) [1] None;
              mkTreeNode
                (mkNode (Scenario.hello_scsv s)
                   (Some (Mutation.substitutions {[38 := 37%N]}))) [2] None;
              mkTreeNode
                (ExpectAlert (Some AlertLevel.fatal)
                   (Some AlertDescription.decode_error)) [3] None;
              mkTreeNode ExpectClose [] None ]
    ∧ Runner.run serialize c
        [Runner.InAlert AlertLevel.fatal AlertDescription.decode_error;
         Runner.InClose]
      = (None, Runner.mkConnection [] [sent])
    ∧ sent !! 38 = Some 37%N
    ∧ length sent = length (serialize (Scenario.hello_scsv s))
    ∧ (∀ o, o ≠ 38 → sent !! o = serialize (Scenario.hello_scsv s) !! o)
    ∧ (∀ ef : gmap string (option string),
         ef !! "session ID len fuzz to 37" = None →
         classify ef "session ID len fuzz to 37"
           (Runner.run serialize c
              [Runner.InAlert AlertLevel.fatal AlertDescription.decode_error;
               Runner.InClose]).1
         = PASS).
Proof.
  intros Hd He Hlen.
  exists (Scenario.fuzzed s (Scenario.hello_scsv s)
            (Mutation.substitutions {[38 := 37%N]}) Scenario.decode_error_alert).
  exists (<[38 := 37%N]> (serialize (Scenario.hello_scsv s))).
  split_and!.
  - apply get_session_id_len_37; assumption.
  - apply session_id_len_37_tree.
  - apply run_session_id_len_37; assumption.
  - apply list_lookup_insert_eq; assumption.
  - apply length_insert.
  - intros o Ho. apply list_lookup_insert_ne. congruence.
  - intros ef Hef. rewrite run_session_id_len_37 by assumption.
    unfold classify. cbn [fst]. rewrite Hef. reflexivity.
Qed.

Lemma session_id_len_probe_witness :
  ∃ c sent,
    Dict.get "session ID len fuzz to 37"
      (Scenario.conversations (mkSetup "localhost" 4433 [47%Z] false false)) = Some c
    ∧ Runner.run (λ _, replicate 64 0%N) c
        [Runner.InAlert AlertLevel.fatal AlertDescription.decode_error;
         Runner.InClose]
      = (None, Runner.mkConnection [] [sent])
    ∧ sent !! 38 = Some 37%N.
Proof.
  destruct (session_id_len_probe (mkSetup "localhost" 4433 [47%Z] false false)
              (λ _, replicate 64 0%N))
    as (c & sent & Hget & _ & Hrun & Hsent & _).
  - reflexivity.
  - reflexivity.
  - cbv beta. rewrite length_replicate. lia.
  - exists c, sent. split; [exact Hget|]. split; [exact Hrun|exact Hsent].
Defined.

(** With [-d] the ClientHello carries extensions, and the population has
    no conversation of that name. *)
Lemma session_id_len_probe_absent_with_dhe :
  Dict.get "session ID len fuzz to 37"
    (Scenario.conversations
       (mkSetup "localhost" 4433 [CipherSuite.TLS_ECDHE_RSA_WITH_AES_128_CBC_SHA]
          true false))
  = None.
Proof.
  apply get_None. rewrite elem_of_keys_conversations.
  vm_compute. discriminate.
Qed.

(** ** Sampling *)

Section SamplingFacts.
Context `{Platform}.

(** [k] draws from a pool of at least [k] elements take [k] elements,
    each from a position of its own. *)
Lemma draw_spec {A : Type} (k : nat) : ∀ (i : nat) (pool : list A),
  k ≤ length pool →
  ∃ rest, pool ≡ₚ draw k i pool ++ rest ∧ length (draw k i pool) = k.
Proof.
  induction k as [|k IH]; intros i pool Hk.
  - exists pool. split; reflexivity.
  - cbn [draw].
    assert (Hj : randbelow i (length pool) `mod` length pool < length pool)
      by (apply Nat.mod_upper_bound; lia).
    destruct (lookup_lt_is_Some_2 pool _ Hj) as [x Hx]. rewrite Hx.
    destruct (IH (S i) (delete (randbelow i (length pool) `mod` length pool) pool))
      as (rest & Hperm & Hlen).
    { rewrite length_delete by eauto. lia. }
    exists rest. split.
    + etransitivity; [apply (delete_Permutation _ _ _ Hx)|].
      cbn [app]. apply Permutation_skip. exact Hperm.
    + cbn [length]. by rewrite Hlen.
Qed.

Lemma draw_all {A : Type} (i : nat) (pool : list A) :
  draw (length pool) i pool ≡ₚ pool.
Proof.
  destruct (draw_spec (length pool) i pool) as (rest & Hperm & Hlen); [lia|].
  assert (Hrest : length rest = 0).
  { apply Permutation_length in Hperm. rewrite length_app in Hperm. lia. }
  destruct rest; [|discriminate]. by rewrite app_nil_r in Hperm.
Qed.

Lemma sample_spec {A : Type} (population : list A) (k : Z) (st : HState) :
  (0 ≤ k ≤ Z.of_nat (length population))%Z →
  sample population k st
  = (Returned (draw (Z.to_nat k) 0 population), st).
Proof. intros Hk. unfold sample. by rewrite decide_True. Qed.

Lemma sample_negative {A : Type} (population : list A) (k : Z) (st : HState) :
  (k < 0)%Z →
  sample population k st
  = (Raised (ValueError "Sample larger than population or is negative"), st).
Proof. intros Hk. unfold sample. rewrite decide_False by lia. done. Qed.

(** What [select] yields. *)
Lemma select_bounds (o : Opt.t) (run_only : option (gset string))
    (conversations : list (string * Conversation)) :
  (0 ≤ Opt.num_limit o)%Z →
  (0 ≤ Z.min (select o run_only conversations).1
             (len (select o run_only conversations).2)
     ≤ len (select o run_only conversations).2)%Z.
Proof.
  intros Hn. unfold select, len.
  destruct run_only as [only|]; [destruct (decide (only ≠ ∅))|];
    repeat case_decide; cbn [fst snd]; lia.
Qed.

Lemma select_all (o : Opt.t) (conversations : list (string * Conversation)) :
  select o None conversations
  = (if decide (Opt.num_limit o = 0%Z) then len conversations else Opt.num_limit o,
     filter (λ kv, kv.1 ≠ "sanity" ∧ kv.1 ∉ Opt.run_exclude o) conversations).
Proof. reflexivity. Qed.

(** [plan] returns whenever the sanity conversation is there and the
    limit is not negative. *)
Lemma plan_spec (o : Opt.t) (run_only : option (gset string))
    (conversations : list (string * Conversation)) (sanity : Conversation)
    (st : HState) :
  Dict.get "sanity" conversations = Some sanity →
  (0 ≤ Opt.num_limit o)%Z →
  plan o run_only conversations st
  = (Returned
       ([("sanity", sanity)],
        draw (Z.to_nat (Z.min (select o run_only conversations).1
                              (len (select o run_only conversations).2)))
          0 (select o run_only conversations).2,
        [("sanity", sanity)]
        ++ draw (Z.to_nat (Z.min (select o run_only conversations).1
                                 (len (select o run_only conversations).2)))
             0 (select o run_only conversations).2
        ++ [("sanity", sanity)]),
     st).
Proof.
  intros Hs Hn. unfold plan, getitem. rewrite Hs.
  pose proof (select_bounds o run_only conversations Hn) as Hk.
  destruct (select o run_only conversations) as [num_limit regular_tests].
  cbn [fst snd] in *.
  unfold mbind, M_bind, mret, M_ret. rewrite sample_spec by exact Hk.
  reflexivity.
Qed.

End SamplingFacts.

(** ** The report and the exit *)

Section HarnessFacts.
Context `{Platform}.

Lemma print_bind {A : Type} (line : string) (k : unit → M A) (st : HState) :
  (print line ≫= k) st = k tt (with_stdout (stdout st ++ [line]) st).
Proof. reflexivity. Qed.

Lemma print_run (line : string) (st : HState) :
  print line st = (Returned tt, with_stdout (stdout st ++ [line]) st).
Proof. reflexivity. Qed.

Lemma get_state_bind {A : Type} (k : HState → M A) (st : HState) :
  (get_state ≫= k) st = k st st.
Proof. reflexivity. Qed.

Lemma with_stdout_with_stdout (out out' : list string) (st : HState) :
  with_stdout out (with_stdout out' st) = with_stdout out st.
Proof. reflexivity. Qed.

Lemma stdout_with_stdout (out : list string) (st : HState) :
  stdout (with_stdout out st) = out.
Proof. reflexivity. Qed.

(** The report only prints; its fifth line is the TOTAL line. *)
Lemma report_spec (o : Opt.t)
    (conversations sampled_tests sanity_tests : list (string * Conversation))
    (st : HState) :
  ∃ rest,
    report o conversations sampled_tests sanity_tests st
    = (Returned tt,
       with_stdout
         (stdout st
          ++ ["Test end"; "===================="; "version: " +:+ str version;
              "====================";
              "TOTAL: " +:+ str (N.of_nat (length sampled_tests
                                            + 2 * length sanity_tests))]
          ++ rest)
         st).
Proof.
  unfold report.
  repeat (rewrite print_bind; cbv beta;
          rewrite ?with_stdout_with_stdout, ?stdout_with_stdout).
  rewrite get_state_bind; cbv beta.
  repeat (rewrite print_bind; cbv beta;
          rewrite ?with_stdout_with_stdout, ?stdout_with_stdout).
  destruct (decide (natural_sort (xpassed (with_stdout _ st)) = []));
    destruct (decide (natural_sort (failed (with_stdout _ st)) = []));
    unfold mbind, M_bind, mret, M_ret; rewrite ?print_run;
    rewrite ?with_stdout_with_stdout, ?stdout_with_stdout;
    rewrite <- ?app_assoc; cbn [app]; eexists; reflexivity.
Qed.

(** [main] from "run the conversation" on: with the sanity conversation
    in the population and a limit that is not negative it runs the
    planned tests, books their results, reports, and leaves with status 1
    exactly when a test failed or passed unexpectedly. *)
Lemma run_conversations_spec (o : Opt.t) (run_only : option (gset string))
    (conversations : list (string * Conversation)) (sanity : Conversation)
    (st : HState) :
  Dict.get "sanity" conversations = Some sanity →
  (0 ≤ Opt.num_limit o)%Z →
  ∃ sampled_tests ordered_tests rest booked,
    plan o run_only conversations
      (mkHState 0 0 0 0 [] [] (stdout st) (world st))
    = (Returned ([("sanity", sanity)], sampled_tests, ordered_tests),
       mkHState 0 0 0 0 [] [] (stdout st) (world st))
    ∧ ordered_tests = [("sanity", sanity)] ++ sampled_tests ++ [("sanity", sanity)]
    ∧ booked = booked_all (Opt.expected_failures o)
                 (run_results (Opt.expected_failures o) ordered_tests (world st))
                 (world_after ordered_tests (world st))
                 (mkHState 0 0 0 0 [] [] (stdout st) (world st))
    ∧ run_conversations o run_only conversations st
      = (if decide (bad booked ≠ 0 ∨ xpass booked ≠ 0)
         then Exited 1%Z else Returned tt,
         with_stdout
           (stdout booked
            ++ ["Test end"; "===================="; "version: " +:+ str version;
                "====================";
                "TOTAL: " +:+ str (N.of_nat (length sampled_tests + 2))]
            ++ rest)
           booked).
Proof.
  intros Hs Hn.
  pose proof (plan_spec o run_only conversations sanity
                (mkHState 0 0 0 0 [] [] (stdout st) (world st)) Hs Hn) as Hplan.
  set (sampled := draw _ _ _) in Hplan.
  set (ordered := [("sanity", sanity)] ++ sampled ++ [("sanity", sanity)]) in Hplan.
  set (booked := booked_all (Opt.expected_failures o)
                   (run_results (Opt.expected_failures o) ordered (world st))
                   (world_after ordered (world st))
                   (mkHState 0 0 0 0 [] [] (stdout st) (world st))).
  destruct (report_spec o conversations sampled [("sanity", sanity)] booked)
    as [rest Hreport].
  exists sampled, ordered, rest, booked.
  split; [exact Hplan|]. split; [reflexivity|]. split; [reflexivity|].
  unfold run_conversations.
  unfold mbind at 1, M_bind at 1. unfold init_counters at 1, modify at 1.
  unfold mbind at 1, M_bind at 1. rewrite Hplan.
  unfold mbind at 1, M_bind at 1. rewrite for_each_run_test.
  cbn [world]. fold booked.
  unfold mbind at 1, M_bind at 1. rewrite Hreport.
  rewrite get_state_bind.
  cbn [length]. change (0 + 2 * 1) with 2.
  change (bad (with_stdout ?out booked)) with (bad booked).
  change (xpass (with_stdout ?out booked)) with (xpass booked).
  case_decide; reflexivity.
Qed.

End HarnessFacts.

(** ** The claims about the harness *)

Lemma run_results_classified `{Platform} (ef : gmap string (option string))
    (tests : list (string * Conversation)) : ∀ (w : World) (r : RunResult),
  r ∈ run_results ef tests w → outcome r = classify ef (name r) (error r).
Proof.
  induction tests as [|[c_name c_test] tests IH]; intros w r Hr; simpl in Hr.
  - by apply elem_of_nil in Hr.
  - destruct (runner_run c_test w) as [exp w'].
    apply elem_of_cons in Hr as [->|Hr]; [reflexivity|]. by apply (IH w').
Qed.

(** C1. For a conversation whose name is in the expected-failure
    registry, one round of the loop returns and: if the run raised
    nothing, it adds one to xpass and appends the name to xpassed; if it
    raised and the registry entry carries a substring that the string of
    the exception does not contain, it adds one to bad and appends the
    name to failed; otherwise it adds one to xfail and the last line it
    prints is 'OK-expected failure'. The other counters and lists stay as
    they were. *)
Theorem expected_failure_classification `{Platform}
    (expected_failures : gmap string (option string))
    (c_name : string) (c_test : Conversation) (st : HState)
    (expected : option string) :
  expected_failures !! c_name = Some expected →
  ∃ st',
    run_test expected_failures (c_name, c_test) st = (Returned tt, st')
    ∧ good st' = good st
    ∧ ((runner_run c_test (world st)).1 = None →
         xpass st' = xpass st + 1 ∧ xpassed st' = xpassed st ++ [c_name]
         ∧ bad st' = bad st ∧ failed st' = failed st ∧ xfail st' = xfail st)
    ∧ (∀ exp required,
         (runner_run c_test (world st)).1 = Some exp →
         expected = Some required →
         str_in required (exc_str exp) = false →
         bad st' = bad st + 1 ∧ failed st' = failed st ++ [c_name]
         ∧ xpass st' = xpass st ∧ xpassed st' = xpassed st ∧ xfail st' = xfail st)
    ∧ (∀ exp,
         (runner_run c_test (world st)).1 = Some exp →
         (expected = None
          ∨ ∃ required, expected = Some required
                        ∧ str_in required (exc_str exp) = true) →
         xfail st' = xfail st + 1
         ∧ last (stdout st') = Some ("OK-expected failure" +:+ LF)
         ∧ bad st' = bad st ∧ failed st' = failed st
         ∧ xpass st' = xpass st ∧ xpassed st' = xpassed st).
Proof.
  intros Hef. eexists. split; [apply run_test_booked|].
  unfold booked, classify, lines_of.
  cbn [good bad xfail xpass failed xpassed stdout world name outcome error].
  rewrite Hef.
  destruct (runner_run c_test (world st)) as [[exp|] w]; cbn [fst];
    (destruct expected as [required|];
     [try destruct (str_in required (exc_str exp)) eqn:Hin|]);
    rewrite ?decide_True by reflexivity;
    rewrite ?decide_False by discriminate;
    rewrite ?Nat.add_0_r, ?app_nil_r, ?last_app;
    (split; [reflexivity|]);
    (split; [intros Hnone; try discriminate Hnone; repeat split|]);
    (split;
     [ intros exp' required' Hexp Hreq Hnotin; try discriminate Hexp;
       try discriminate Hreq; try congruence; repeat split
     | intros exp' Hexp Hreq; try discriminate Hexp;
       try (destruct Hreq as [Hreq|(required' & Hreq & Hin')]; congruence);
       repeat split ]).
Qed.

Lemma expected_failure_classification_witness :
  ∃ st',
    run_test (H := Runner.scripted (λ _, []) (λ _, []))
      {["sanity" := None]}
      ("sanity", Scenario.sanity (mkSetup "localhost" 4433 [47%Z] false false))
      (Runner.start (λ _, []) (λ _, []))
    = (Returned tt, st').
Proof.
  destruct (expected_failure_classification (H := Runner.scripted (λ _, []) (λ _, []))
              {["sanity" := None]} "sanity"
              (Scenario.sanity (mkSetup "localhost" 4433 [47%Z] false false))
              (Runner.start (λ _, []) (λ _, [])) None)
    as (st' & Hrun & _).
  - apply lookup_singleton_eq.
  - exists st'. exact Hrun.
Defined.

(** C4. The loop over the tests returns whatever the runner raises: every
    test of the sequence is run, in order, against the world its
    predecessors left; a test whose run raised is booked under its name
    as FAIL or XFAIL, and the output shows its name, 'Error while
    processing' and the traceback of the exception. In particular the
    tests after a failing first test are run all the same. *)
Theorem loop_catches_every_exception `{Platform}
    (expected_failures : gmap string (option string))
    (tests : list (string * Conversation)) (st : HState) :
  ∃ st',
    for_each tests (run_test expected_failures) st = (Returned tt, st')
    ∧ world st' = world_after tests (world st)
    ∧ name <$> run_results expected_failures tests (world st) = tests.*1
    ∧ stdout st'
      = stdout st
        ++ (run_results expected_failures tests (world st) ≫= lines_of expected_failures)
    ∧ bad st' = bad st + count FAIL (run_results expected_failures tests (world st))
    ∧ xfail st' = xfail st + count XFAIL (run_results expected_failures tests (world st))
    ∧ failed st'
      = failed st ++ names_of FAIL (run_results expected_failures tests (world st))
    ∧ (∀ r exp,
         r ∈ run_results expected_failures tests (world st) →
         error r = Some exp →
         (outcome r = FAIL ∨ outcome r = XFAIL)
         ∧ ∃ more,
             lines_of expected_failures r
             = [name r +:+ " ..."; "Error while processing"; format_exc exp] ++ more).
Proof.
  eexists. split; [apply for_each_run_test|].
  unfold booked_all. cbn [world stdout bad xfail failed].
  split_and!; [reflexivity|apply names_run_results|reflexivity..|].
  intros r exp Hr Hexp. split.
  - rewrite (run_results_classified _ _ _ _ Hr), Hexp. unfold classify.
    destruct (expected_failures !! name r) as [[required|]|];
      [destruct (str_in required (exc_str exp))|..]; auto.
  - unfold lines_of. rewrite Hexp. eexists. reflexivity.
Qed.

Lemma booked_all_counters `{Platform} (ef : gmap string (option string))
    (results : list RunResult) (w : World) (out : list string) :
  let booked := booked_all ef results w (mkHState 0 0 0 0 [] [] out w) in
  good booked = count PASS results ∧ bad booked = count FAIL results
  ∧ xfail booked = count XFAIL results ∧ xpass booked = count XPASS results.
Proof. unfold booked_all. cbn. done. Qed.

(** C10. When the limit is not negative, [main] runs its loop to the
    end, and then good + bad + xfail + xpass is the number of tests the
    loop ran, which is [len(sampled_tests) + 2]; the fifth line of the
    report is the TOTAL line and shows that number. *)
Theorem counters_add_up_to_total `{Platform} (o : Opt.t)
    (run_only : option (gset string)) (s : Setup) (st : HState) :
  (0 ≤ Opt.num_limit o)%Z →
  ∃ sanity_tests sampled_tests ordered_tests r st' rest,
    plan o run_only (Scenario.conversations s)
      (mkHState 0 0 0 0 [] [] (stdout st) (world st))
    = (Returned (sanity_tests, sampled_tests, ordered_tests),
       mkHState 0 0 0 0 [] [] (stdout st) (world st))
    ∧ run_conversations o run_only (Scenario.conversations s) st = (r, st')
    ∧ good st' + bad st' + xfail st' + xpass st' = length ordered_tests
    ∧ length ordered_tests = length sampled_tests + 2
    ∧ length (run_results (Opt.expected_failures o) ordered_tests (world st))
      = length ordered_tests
    ∧ stdout st'
      = stdout st
        ++ (run_results (Opt.expected_failures o) ordered_tests (world st)
            ≫= lines_of (Opt.expected_failures o))
        ++ ["Test end"; "===================="; "version: " +:+ str version;
            "====================";
            "TOTAL: " +:+ str (N.of_nat (good st' + bad st' + xfail st' + xpass st'))]
        ++ rest.
Proof.
  intros Hn.
  destruct (run_conversations_spec o run_only (Scenario.conversations s)
              (Scenario.sanity s) st (get_sanity s) Hn)
    as (sampled & ordered & rest & booked & Hplan & Hord & Hbooked & Hrun).
  pose proof (booked_all_counters (Opt.expected_failures o)
                (run_results (Opt.expected_failures o) ordered (world st))
                (world_after ordered (world st)) (stdout st)) as Hc.
  assert (Hsum : good booked + bad booked + xfail booked + xpass booked
                 = length ordered).
  { rewrite Hbooked. unfold booked_all.
    cbn [good bad xfail xpass]. cbn [Nat.add].
    rewrite count_total. apply length_run_results. }
  assert (Hlen : length ordered = length sampled + 2).
  { rewrite Hord, !length_app. cbn [length]. lia. }
  eexists _, sampled, ordered, _, _, rest.
  split; [exact Hplan|]. split; [exact Hrun|].
  unfold with_stdout. cbn [good bad xfail xpass stdout].
  split; [exact Hsum|]. split; [exact Hlen|].
  split; [apply length_run_results|].
  rewrite Hsum, Hlen. rewrite Hbooked at 1. unfold booked_all. cbn [stdout].
  rewrite <- !app_assoc. reflexivity.
Qed.

Lemma counters_add_up_to_total_witness :
  ∃ r st' n,
    run_conversations (H := Runner.scripted (λ _, []) (λ _, []))
      Opt.defaults None
      (Scenario.conversations (mkSetup "localhost" 4433 [47%Z] false false))
      (Runner.start (λ _, []) (λ _, []))
    = (r, st')
    ∧ good st' + bad st' + xfail st' + xpass st' = n + 2.
Proof.
  destruct (counters_add_up_to_total (H := Runner.scripted (λ _, []) (λ _, []))
              Opt.defaults None (mkSetup "localhost" 4433 [47%Z] false false)
              (Runner.start (λ _, []) (λ _, [])))
    as (sanity_tests & sampled & ordered & r & st' & rest
        & Hplan & Hrun & Hsum & Hlen & _).
  - cbn [Opt.num_limit Opt.defaults]; lia.
  - exists r, st', (length sampled). split; [exact Hrun|]. rewrite Hsum, Hlen. reflexivity.
Defined.

(** When the limit is not negative, the part of [main] from "run the
    conversation" on runs its loop to the end and leaves with status 1 or
    0: with 1 exactly when some executed test was classified FAIL or
    XPASS, that is when bad or xpass is not zero, and with 0 exactly when
    every executed test was classified PASS or XFAIL. *)
Lemma run_conversations_exit_status `{Platform} (o : Opt.t)
    (run_only : option (gset string)) (s : Setup) (st : HState) :
  (0 ≤ Opt.num_limit o)%Z →
  ∃ sanity_tests sampled_tests ordered_tests r st',
    plan o run_only (Scenario.conversations s)
      (mkHState 0 0 0 0 [] [] (stdout st) (world st))
    = (Returned (sanity_tests, sampled_tests, ordered_tests),
       mkHState 0 0 0 0 [] [] (stdout st) (world st))
    ∧ run_conversations o run_only (Scenario.conversations s) st = (r, st')
    ∧ (exit_status r = Some 1%Z ∨ exit_status r = Some 0%Z)
    ∧ (exit_status r = Some 1%Z ↔ bad st' ≠ 0 ∨ xpass st' ≠ 0)
    ∧ (exit_status r = Some 1%Z
       ↔ ∃ res, res ∈ run_results (Opt.expected_failures o) ordered_tests (world st)
                ∧ (outcome res = FAIL ∨ outcome res = XPASS))
    ∧ (exit_status r = Some 0%Z
       ↔ ∀ res, res ∈ run_results (Opt.expected_failures o) ordered_tests (world st)
                → outcome res = PASS ∨ outcome res = XFAIL).
Proof.
  intros Hn.
  destruct (run_conversations_spec o run_only (Scenario.conversations s)
              (Scenario.sanity s) st (get_sanity s) Hn)
    as (sampled & ordered & rest & booked & Hplan & Hord & Hbooked & Hrun).
  set (results := run_results (Opt.expected_failures o) ordered (world st)) in *.
  assert (Hbad : bad booked = count FAIL results).
  { rewrite Hbooked. reflexivity. }
  assert (Hxpass : xpass booked = count XPASS results).
  { rewrite Hbooked. reflexivity. }
  assert (Hiff : bad booked ≠ 0 ∨ xpass booked ≠ 0
                 ↔ ∃ res, res ∈ results ∧ (outcome res = FAIL ∨ outcome res = XPASS)).
  { rewrite Hbad, Hxpass, !count_pos_iff. split.
    - intros [(res & Hres & Ho)|(res & Hres & Ho)]; exists res; auto.
    - intros (res & Hres & [Ho|Ho]); [left|right]; exists res; auto. }
  eexists _, sampled, ordered, _, _.
  split; [exact Hplan|]. split; [exact Hrun|].
  change (bad (with_stdout ?out booked)) with (bad booked).
  change (xpass (with_stdout ?out booked)) with (xpass booked).
  destruct (decide (bad booked ≠ 0 ∨ xpass booked ≠ 0)) as [Hsome|Hnone];
    cbn [exit_status].
  - split; [left; reflexivity|]. split; [split; auto|].
    split; [split; [intros _; apply Hiff, Hsome|reflexivity]|].
    split; [discriminate|]. intros Hall. exfalso.
    apply Hiff in Hsome as (res & Hres & Ho).
    destruct (Hall res Hres) as [Hp|Hp], Ho as [Ho|Ho]; congruence.
  - split; [right; reflexivity|].
    split; [split; [discriminate|intros Hc; exfalso; exact (Hnone Hc)]|].
    split; [split; [discriminate|intros Hc; exfalso; apply Hnone, Hiff, Hc]|].
    split; [|reflexivity]. intros _ res Hres.
    destruct (outcome res) eqn:Ho; auto; exfalso; apply Hnone, Hiff;
      exists res; auto.
Qed.

(** ** The selection of the tests *)

Lemma NoDup_fst_filter {A B : Type} (P : A * B → Prop) `{∀ x, Decision (P x)}
    (l : list (A * B)) :
  NoDup l.*1 → NoDup (filter P l).*1.
Proof.
  intros Hl.
  assert (Hsub : (filter P l).*1 `sublist_of` l.*1)
    by apply fmap_sublist, sublist_filter.
  eauto using sublist_NoDup.
Qed.

(** The plan without a selection set, for any dictionary that holds the
    sanity conversation. *)
Lemma plan_without_selection `{Platform} (o : Opt.t)
    (conversations : list (string * Conversation)) (sanity : Conversation)
    (st : HState) :
  Dict.get "sanity" conversations = Some sanity →
  NoDup (Dict.keys conversations) →
  (0 ≤ Opt.num_limit o)%Z →
  ∃ sampled_tests,
    plan o None conversations st
    = (Returned ([("sanity", sanity)], sampled_tests,
                 [("sanity", sanity)] ++ sampled_tests ++ [("sanity", sanity)]), st)
    ∧ NoDup sampled_tests.*1
    ∧ (∀ kv, kv ∈ sampled_tests →
         kv ∈ conversations ∧ kv.1 ≠ "sanity" ∧ kv.1 ∉ Opt.run_exclude o)
    ∧ ((0 < Opt.num_limit o
          < len (filter (λ kv, kv.1 ≠ "sanity" ∧ kv.1 ∉ Opt.run_exclude o)
                   conversations))%Z →
         Z.of_nat (length sampled_tests) = Opt.num_limit o)
    ∧ (Opt.num_limit o = 0%Z →
         sampled_tests
         ≡ₚ filter (λ kv, kv.1 ≠ "sanity" ∧ kv.1 ∉ Opt.run_exclude o) conversations).
Proof.
  intros Hs Hnd Hn.
  rewrite (plan_spec o None conversations sanity st Hs Hn).
  rewrite select_all. cbn [fst snd].
  assert (Hnde : NoDup (filter (λ kv, kv.1 ≠ "sanity" ∧ kv.1 ∉ Opt.run_exclude o)
                          conversations).*1)
    by (apply NoDup_fst_filter; exact Hnd).
  assert (Hsub : ∀ kv,
            kv ∈ filter (λ kv, kv.1 ≠ "sanity" ∧ kv.1 ∉ Opt.run_exclude o)
                   conversations →
            kv ∈ conversations ∧ kv.1 ≠ "sanity" ∧ kv.1 ∉ Opt.run_exclude o).
  { intros kv Hin. apply list_elem_of_filter in Hin as [[? ?] ?]. auto. }
  assert (Hele : length (filter (λ kv, kv.1 ≠ "sanity" ∧ kv.1 ∉ Opt.run_exclude o)
                           conversations) ≤ length conversations)
    by apply length_filter.
  revert Hnde Hsub Hele.
  generalize (filter (λ kv, kv.1 ≠ "sanity" ∧ kv.1 ∉ Opt.run_exclude o) conversations).
  intros eligible Hnde Hsub Hele. unfold len.
  set (k := Z.to_nat _).
  assert (Hk : k ≤ length eligible) by (subst k; case_decide; lia).
  destruct (draw_spec k 0 eligible Hk) as (rest & Hperm & Hlen).
  eexists. split; [reflexivity|]. split.
  { apply (NoDup_Permutation_proper _ _ (fmap_Permutation fst _ _ Hperm)) in Hnde.
    rewrite fmap_app in Hnde. apply NoDup_app in Hnde. tauto. }
  split.
  { intros kv Hkv. apply Hsub.
    apply (elem_of_Permutation_proper kv _ _ Hperm), elem_of_app. left. exact Hkv. }
  split.
  { intros Hpos. rewrite Hlen. subst k. rewrite decide_False by lia. lia. }
  intros Hzero.
  assert (Hkall : k = length eligible).
  { subst k. rewrite decide_True by exact Hzero. lia. }
  rewrite Hkall. apply draw_all.
Qed.

(** C3. Without an explicit selection set and with a limit that is not
    negative, [plan] returns; the ordered sequence is the sanity
    conversation, the sampled tests, the sanity conversation; the sampled
    tests have names that differ from one another, are in the population,
    are not the sanity conversation and are not in the exclusion set.
    With a positive limit below the number of eligible conversations
    there are exactly as many sampled tests as the limit says; with the
    limit zero the sampled tests are all the eligible ones. *)
Theorem sampling_without_selection `{Platform} (o : Opt.t) (s : Setup) (st : HState) :
  (0 ≤ Opt.num_limit o)%Z →
  ∃ sampled_tests ordered_tests,
    plan o None (Scenario.conversations s) st
    = (Returned ([("sanity", Scenario.sanity s)], sampled_tests, ordered_tests), st)
    ∧ ordered_tests
      = [("sanity", Scenario.sanity s)] ++ sampled_tests
        ++ [("sanity", Scenario.sanity s)]
    ∧ head ordered_tests = Some ("sanity", Scenario.sanity s)
    ∧ last ordered_tests = Some ("sanity", Scenario.sanity s)
    ∧ NoDup sampled_tests.*1
    ∧ (∀ kv, kv ∈ sampled_tests →
         kv ∈ Scenario.conversations s ∧ kv.1 ≠ "sanity"
         ∧ kv.1 ∉ Opt.run_exclude o)
    ∧ ((0 < Opt.num_limit o
          < len (filter (λ kv, kv.1 ≠ "sanity" ∧ kv.1 ∉ Opt.run_exclude o)
                   (Scenario.conversations s)))%Z →
         Z.of_nat (length sampled_tests) = Opt.num_limit o)
    ∧ (Opt.num_limit o = 0%Z →
         sampled_tests
         ≡ₚ filter (λ kv, kv.1 ≠ "sanity" ∧ kv.1 ∉ Opt.run_exclude o)
              (Scenario.conversations s)).
Proof.
  intros Hn.
  destruct (plan_without_selection o (Scenario.conversations s) (Scenario.sanity s)
              st (get_sanity s) (NoDup_keys_conversations s) Hn)
    as (sampled & Hplan & Hnd & Hin & Hpos & Hzero).
  exists sampled, ([("sanity", Scenario.sanity s)] ++ sampled
                   ++ [("sanity", Scenario.sanity s)]).
  split; [exact Hplan|]. split; [reflexivity|]. split; [reflexivity|].
  split; [rewrite app_assoc; apply last_snoc|].
  split; [exact Hnd|]. split; [exact Hin|]. split; [exact Hpos|exact Hzero].
Qed.

Lemma sampling_without_selection_witness :
  ∃ sampled_tests ordered_tests,
    plan (H := Runner.scripted (λ _, []) (λ _, []))
      (Opt.set_num_limit 0 Opt.defaults) None
      (Scenario.conversations (mkSetup "localhost" 4433 [47%Z] false false))
      (Runner.start (λ _, []) (λ _, []))
    = (Returned
         ([("sanity", Scenario.sanity (mkSetup "localhost" 4433 [47%Z] false false))],
          sampled_tests, ordered_tests),
       Runner.start (λ _, []) (λ _, []))
    ∧ NoDup sampled_tests.*1.
Proof.
  destruct (sampling_without_selection (H := Runner.scripted (λ _, []) (λ _, []))
              (Opt.set_num_limit 0 Opt.defaults)
              (mkSetup "localhost" 4433 [47%Z] false false)
              (Runner.start (λ _, []) (λ _, [])))
    as (sampled & ordered & Hplan & _ & _ & _ & Hnd & _).
  - cbn [Opt.num_limit Opt.set_num_limit]. lia.
  - exists sampled, ordered. split; [exact Hplan|exact Hnd].
Defined.

(** ** Options *)

Section OptionFacts.
Context `{Platform}.

Lemma handle_options_app (pre post : list (string * string)) : ∀ (o : Opt.t) (st : HState),
  handle_options (pre ++ post) o st
  = match handle_options pre o st with
    | (Returned o', st') => handle_options post o' st'
    | (Raised e, st') => (Raised e, st')
    | (Exited c, st') => (Exited c, st')
    end.
Proof.
  induction pre as [|[opt arg] pre IH]; intros o st; [reflexivity|].
  cbn [app handle_options]. unfold mbind, M_bind.
  destruct (handle_option o opt arg st) as [[o'| |] st']; [apply IH|reflexivity..].
Qed.

Lemma int_or_raise_world (parse : string → option Z) (base arg : string)
    (st st' : HState) (r : Result Z) :
  int_or_raise parse base arg st = (r, st') → st' = st.
Proof. unfold int_or_raise. destruct (parse arg); intros [= _ <-]; reflexivity. Qed.

Lemma help_msg_world (st : HState) :
  world (help_msg st).2 = world st.
Proof. reflexivity. Qed.

(** Handling an option never runs a conversation, and it records the
    probe name of a [-x]. *)
Lemma handle_option_spec (o o' : Opt.t) (opt arg : string) (st st' : HState) :
  handle_option o opt arg st = (Returned o', st') →
  st' = st
  ∧ Opt.last_exp_tmp o'
    = if decide (opt = "-x") then Some arg else Opt.last_exp_tmp o.
Proof.
  unfold handle_option, mbind, M_bind, mret, M_ret, raise, sys_exit.
  intros Hrun.
  repeat match type of Hrun with
         | context [decide ?P] => destruct (decide P)
         | context [match ?x with _ => _ end] => destruct x eqn:?
         end;
    try discriminate Hrun;
    repeat match goal with
           | Hp : int_or_raise _ _ _ _ = _ |- _ =>
               apply int_or_raise_world in Hp; subst
           end;
    injection Hrun as <- <-; (split; [reflexivity|]);
    cbn [Opt.last_exp_tmp Opt.set_host Opt.set_port Opt.set_run_exclude
         Opt.set_expected_failures Opt.set_last_exp_tmp Opt.set_num_limit
         Opt.set_dhe Opt.set_ciphers Opt.set_ems];
    try case_decide; congruence.
Qed.

Lemma most_recent_x_snoc (pre : list (string * string)) (opt arg : string) :
  most_recent_x (pre ++ [(opt, arg)])
  = if decide (opt = "-x") then Some arg else most_recent_x pre.
Proof. unfold most_recent_x. by rewrite foldl_app. Qed.

Lemma handle_options_spec (pre : list (string * string)) : ∀ (o : Opt.t) (st st' : HState),
  handle_options pre Opt.defaults st = (Returned o, st') →
  st' = st ∧ Opt.last_exp_tmp o = most_recent_x pre.
Proof.
  induction pre as [|[opt arg] pre IH] using rev_ind; intros o st st'.
  - intros [= <- <-]. done.
  - rewrite handle_options_app.
    destruct (handle_options pre Opt.defaults st) as [[o1| |] st1] eqn:Hpre;
      [|discriminate..].
    destruct (IH o1 st st1 Hpre) as [-> Hlast].
    cbn [handle_options]. unfold mbind, M_bind.
    destruct (handle_option o1 opt arg st) as [[o2| |] st2] eqn:Hopt; [|discriminate..].
    intros [= <- <-]. apply handle_option_spec in Hopt as [-> Hlast2].
    split; [reflexivity|]. by rewrite Hlast2, most_recent_x_snoc, Hlast.
Qed.

Lemma handle_minus_X_none (o : Opt.t) (arg : string) (st : HState) :
  Opt.last_exp_tmp o = None →
  handle_option o "-X" arg st
  = (Raised (ValueError "-x has to be specified before -X"), st).
Proof.
  intros Hlast. unfold handle_option.
  repeat (rewrite decide_False by discriminate).
  rewrite decide_True by reflexivity. rewrite Hlast. reflexivity.
Qed.

Lemma handle_minus_X_some (o : Opt.t) (arg probe : string) (st : HState) :
  Opt.last_exp_tmp o = Some probe → probe ≠ "" →
  handle_option o "-X" arg st
  = (Returned (Opt.set_expected_failures
                 (<[probe := Some arg]> (Opt.expected_failures o)) o), st).
Proof.
  intros Hlast Hne. unfold handle_option.
  repeat (rewrite decide_False by discriminate).
  rewrite decide_True by reflexivity. rewrite Hlast.
  rewrite decide_False by exact Hne. reflexivity.
Qed.

End OptionFacts.

(** C9, as the code has it. Let the options before a [-X] be handled
    without ending the run. Nothing has been run by then. If no [-x] is
    among them, [main] raises ValueError('-x has to be specified before
    -X') at the [-X], whatever follows, and no conversation is run. If
    the last [-x] among them named a probe with a non-empty name, the
    [-X] is handled and leaves its substring as the registry entry of
    that probe, all other options as they were. *)
Theorem minus_X_after_minus_x `{Platform} (pre : list (string * string))
    (arg : string) (o : Opt.t) (st st1 : HState) :
  handle_options pre Opt.defaults st = (Returned o, st1) →
  st1 = st
  ∧ (most_recent_x pre = None →
       ∀ post args,
         main (pre ++ ("-X", arg) :: post) args st
         = (Raised (ValueError "-x has to be specified before -X"), st))
  ∧ (∀ probe,
       most_recent_x pre = Some probe → probe ≠ "" →
       handle_options (pre ++ [("-X", arg)]) Opt.defaults st
       = (Returned (Opt.set_expected_failures
                      (<[probe := Some arg]> (Opt.expected_failures o)) o), st)
       ∧ <[probe := Some arg]> (Opt.expected_failures o) !! probe = Some (Some arg)).
Proof.
  intros Hpre. destruct (handle_options_spec pre o st st1 Hpre) as [-> Hlast].
  split; [reflexivity|]. split.
  - intros Hnone post args. unfold main. unfold mbind at 1, M_bind at 1.
    rewrite handle_options_app, Hpre. cbn [handle_options].
    unfold mbind at 1, M_bind at 1.
    rewrite handle_minus_X_none by congruence. reflexivity.
  - intros probe Hsome Hne. split; [|apply lookup_insert_eq].
    rewrite handle_options_app, Hpre. cbn [handle_options].
    unfold mbind, M_bind.
    rewrite (handle_minus_X_some o arg probe) by congruence. reflexivity.
Qed.

Lemma minus_X_after_minus_x_witness :
  handle_options (H := Runner.scripted (λ _, []) (λ _, []))
    ([("-x", "sanity")] ++ [("-X", "Unexpected")]) Opt.defaults
    (Runner.start (λ _, []) (λ _, []))
  = (Returned
       (Opt.set_expected_failures (<["sanity" := Some "Unexpected"]> {["sanity" := None]})
          (Opt.set_last_exp_tmp (Some "sanity")
             (Opt.set_expected_failures {["sanity" := None]} Opt.defaults))),
     Runner.start (λ _, []) (λ _, [])).
Proof.
  destruct (minus_X_after_minus_x (H := Runner.scripted (λ _, []) (λ _, []))
              [("-x", "sanity")] "Unexpected"
              (Opt.set_last_exp_tmp (Some "sanity")
                 (Opt.set_expected_failures {["sanity" := None]} Opt.defaults))
              (Runner.start (λ _, []) (λ _, [])) (Runner.start (λ _, []) (λ _, [])))
    as (_ & _ & Hsome).
  - reflexivity.
  - destruct (Hsome "sanity") as [Hrun _]; [reflexivity|discriminate|].
    exact Hrun.
Defined.

(** [--help -X message]: the [-X] comes before any [-x], yet the run
    ends at [--help] with status 0 and no ValueError. *)
Lemma help_before_minus_X_exits :
  ∃ st',
    main (H := Runner.scripted (λ _, []) (λ _, []))
      [("--help", ""); ("-X", "Unexpected")] []
      (Runner.start (λ _, []) (λ _, []))
    = (Exited 0%Z, st')
    ∧ most_recent_x [("--help", "")] = None.
Proof. eexists. split; [vm_compute; reflexivity|reflexivity]. Qed.

(** [-x '' -X message]: the [-X] follows a [-x], yet the empty probe name
    makes it raise. *)
Example minus_X_after_empty_probe_name :
  main (H := Runner.scripted (λ _, []) (λ _, []))
    [("-x", ""); ("-X", "Unexpected")] []
    (Runner.start (λ _, []) (λ _, []))
  = (Raised (ValueError "-x has to be specified before -X"),
     Runner.start (λ _, []) (λ _, [])).
Proof. vm_compute. reflexivity. Qed.

(** * Further properties of the script *)

(** ** Names in the population *)

Lemma increasing_NoDup (l : list string) : increasing l = true → NoDup l.
Proof.
  assert (Hall : ∀ l x, increasing (x :: l) = true →
                   Forall (String_as_OT.lt x) l ∧ increasing l = true).
  { clear l. induction l as [|y l IH]; intros x Hinc; [by split|].
    cbn [increasing] in Hinc.
    destruct (String_as_OT.compare x y) eqn:Hxy; try discriminate.
    destruct (IH y Hinc) as [Hy _]. split; [|exact Hinc].
    constructor; [exact Hxy|].
    eapply Forall_impl; [exact Hy|]. intros z Hz.
    exact (StrictOrder_Transitive (R := String_as_OT.lt) x y z Hxy Hz). }
  induction l as [|x l IH]; intros Hinc; [constructor|].
  destruct (Hall l x Hinc) as [Hlt Hl]. constructor; [|auto].
  intros Hin. rewrite Forall_forall in Hlt.
  exact (StrictOrder_Irreflexive (R := String_as_OT.lt) x (Hlt x Hin)).
Qed.

Lemma sorted_check_NoDup (l : list string) :
  increasing (NameSort.sort l) = true → NoDup l.
Proof.
  intros Hinc. apply increasing_NoDup in Hinc.
  eapply NoDup_Permutation_proper; [|exact Hinc].
  apply NameSort.Permuted_sort.
Qed.

Lemma names_names_with (s : Setup) :
  Scenario.names s
  = names_with (Scenario.not_ext s) (Scenario.skip_cipher_suites_len s)
      (Scenario.skip_compression_len s).
Proof. reflexivity. Qed.

Lemma filter_sublist_unskipped (skip : N → bool) (l : list N) :
  filter (λ i, skip i = false) l `sublist_of` filter (λ _, false = false) l.
Proof.
  induction l as [|x l IH]; [constructor|].
  rewrite !filter_cons.
  destruct (decide (false = false)) as [_|Hne]; [|by destruct Hne].
  destruct (decide (skip x = false)); [by apply sublist_skip|by apply sublist_cons].
Qed.

(** Skipping values, or leaving out the sweeps under [if not ext],
    leaves names out and keeps the order of the others. *)
Lemma names_with_sublist (plain plain' : bool)
    (skip_cipher_suites skip_compression : N → bool) :
  (plain = true → plain' = true) →
  names_with plain skip_cipher_suites skip_compression
  `sublist_of` names_with plain' (λ _, false) (λ _, false).
Proof.
  intros Hplain. unfold names_with.
  destruct plain, plain'; try (by specialize (Hplain eq_refl));
    repeat (apply sublist_app;
            [first [apply fmap_sublist, filter_sublist_unskipped
                   |apply sublist_nil_l
                   |reflexivity]|]);
    reflexivity.
Qed.

Lemma NoDup_all_names : NoDup (names_with true (λ _, false) (λ _, false)).
Proof. apply sorted_check_NoDup. vm_cast_no_check (eq_refl true). Qed.

(** No name is used by two assignments. *)
Lemma NoDup_names (s : Setup) : NoDup (Scenario.names s).
Proof.
  rewrite names_names_with.
  exact (sublist_NoDup _ _ NoDup_all_names
           (names_with_sublist _ true _ _ (λ _, eq_refl))).
Qed.

Lemma set_fresh {V : Type} (k : string) (v : V) (d : list (string * V)) :
  k ∉ Dict.keys d → Dict.set k v d = d ++ [(k, v)].
Proof.
  unfold Dict.keys. induction d as [|[k' v'] d IH]; intros Hk; [reflexivity|].
  cbn [Dict.set]. rewrite fmap_cons in Hk. cbn [fst] in Hk.
  rewrite decide_False by (intros ->; apply Hk; left).
  rewrite IH; [reflexivity|]. intros Hin. apply Hk. by right.
Qed.

Lemma assign_all_fresh {V : Type} (l : list (string * V)) : ∀ d,
  NoDup (Dict.keys d ++ l.*1) → Dict.assign_all d l = d ++ l.
Proof.
  induction l as [|[k v] l IH]; intros d Hnd.
  - by rewrite app_nil_r.
  - cbn [Dict.assign_all foldl fst snd]. change (foldl _ ?d l) with (Dict.assign_all d l).
    rewrite fmap_cons in Hnd. cbn [fst] in Hnd.
    apply NoDup_app in Hnd as (Hd & Hdisj & Hl).
    apply NoDup_cons in Hl as [Hk Hl].
    rewrite set_fresh by (intros Hin; apply (Hdisj k Hin); left).
    rewrite IH; [by rewrite <- app_assoc|].
    unfold Dict.keys. rewrite fmap_app. cbn [fmap list_fmap fst].
    rewrite <- app_assoc. cbn [app]. apply NoDup_app. split; [exact Hd|]. split.
    + intros x Hx Hx'. apply elem_of_cons in Hx' as [->|Hx'].
      * apply (Hdisj k Hx). left.
      * apply (Hdisj x Hx). by right.
    + by apply NoDup_cons.
Qed.

Lemma conversations_eq_assignments (s : Setup) :
  Scenario.conversations s = Scenario.assignments s.
Proof.
  rewrite conversations_assignments. apply assign_all_fresh.
  cbn [Dict.keys fmap list_fmap app]. rewrite assignments_names. apply NoDup_names.
Qed.

Lemma length_names (s : Setup) :
  Z.of_nat (length (Scenario.names s))
  = match dhe s, ems s with
    | false, false => 7929%Z
    | false, true => 5116%Z
    | true, _ => 5115%Z
    end.
Proof. revert s. apply setup_cases; intros h p c; vm_compute; reflexivity. Qed.

Lemma length_conversations (s : Setup) :
  Z.of_nat (length (Scenario.conversations s))
  = match dhe s, ems s with
    | false, false => 7929%Z
    | false, true => 5116%Z
    | true, _ => 5115%Z
    end.
Proof.
  rewrite conversations_eq_assignments, <- length_names, <- assignments_names.
  by rewrite length_fmap.
Qed.

(** X1. No two assignments to [conversations] use the same name: the
    population is the list of all conversations the script builds, in
    program order, none overwritten by a later one. *)
Theorem population_keeps_every_conversation (s : Setup) :
  Scenario.conversations s = Scenario.assignments s
  ∧ NoDup (Scenario.assignments s).*1.
Proof.
  split; [apply conversations_eq_assignments|].
  rewrite assignments_names. apply NoDup_names.
Qed.

(** X2. The population has 7929 conversations when neither dhe nor ems
    is set, 5116 with ems alone and 5115 with dhe, with or without ems. *)
Theorem population_size (s : Setup) :
  Z.of_nat (length (Scenario.conversations s))
  = match dhe s, ems s with
    | false, false => 7929%Z
    | false, true => 5116%Z
    | true, _ => 5115%Z
    end.
Proof. apply length_conversations. Qed.

(** ** How many tests are run *)

Lemma length_le_size (ks : list string) (X : gset string) :
  NoDup ks → (∀ k, k ∈ ks → k ∈ X) → length ks ≤ size X.
Proof.
  intros Hnd Hsub. rewrite <- (size_list_to_set (C := gset string) ks Hnd).
  apply subseteq_size. intros k Hk. apply elem_of_list_to_set in Hk. auto.
Qed.

Lemma length_named_le_size {V : Type} (l : list (string * V)) (only : gset string) :
  NoDup (Dict.keys l) → length (filter (λ kv, kv.1 ∈ only) l) ≤ size only.
Proof.
  intros Hnd. rewrite <- (length_fmap fst). apply length_le_size.
  - apply NoDup_fst_filter, Hnd.
  - intros k Hk. apply list_elem_of_fmap in Hk as (kv & -> & Hkv).
    apply list_elem_of_filter in Hkv as [Hin _]. exact Hin.
Qed.

(** Filtering out the sanity conversation and the excluded names drops at
    most one entry and one per excluded name. *)
Lemma length_eligible {V : Type} (l : list (string * V)) (excl : gset string) :
  NoDup (Dict.keys l) →
  length l ≤ length (filter (λ kv, kv.1 ≠ "sanity" ∧ kv.1 ∉ excl) l) + 1 + size excl.
Proof.
  intros Hnd.
  pose proof (filter_app_complement (λ kv : string * V, kv.1 ≠ "sanity" ∧ kv.1 ∉ excl) l)
    as Hperm.
  apply Permutation_length in Hperm. rewrite length_app in Hperm.
  assert (Hc : length (filter (λ kv : string * V, ¬ (kv.1 ≠ "sanity" ∧ kv.1 ∉ excl)) l)
               ≤ 1 + size excl).
  { rewrite <- (length_fmap fst).
    etransitivity; [apply (length_le_size _ ({["sanity"]} ∪ excl))|].
    - apply NoDup_fst_filter, Hnd.
    - intros k Hk. apply list_elem_of_fmap in Hk as (kv & -> & Hkv).
      apply list_elem_of_filter in Hkv as [Hnot _].
      destruct (decide (kv.1 = "sanity")) as [->|Hne]; [set_solver|].
      destruct (decide (kv.1 ∈ excl)); [set_solver|]. exfalso. apply Hnot. done.
    - rewrite size_union_alt, size_singleton.
      apply Nat.add_le_mono_l, subseteq_size. set_solver. }
  lia.
Qed.

Section RunSizeFacts.
Context `{Platform}.

(** [plan] does not look at the state. *)
Lemma plan_state (o : Opt.t) (run_only : option (gset string))
    (conversations : list (string * Conversation)) (st st1 st2 : HState)
    (r : Result (list (string * Conversation) * list (string * Conversation)
                 * list (string * Conversation))) :
  plan o run_only conversations st = (r, st1) →
  plan o run_only conversations st2 = (r, st2).
Proof.
  unfold plan, getitem, sample, mbind, M_bind, mret, M_ret, raise.
  destruct (Dict.get "sanity" conversations); [|intros [= <- _]; reflexivity].
  destruct (select o run_only conversations) as [num_limit regular_tests].
  case_decide; intros [= <- _]; reflexivity.
Qed.

Lemma counters_total_helper (o : Opt.t) (run_only : option (gset string))
    (s : Setup) (st : HState) :
  (0 ≤ Opt.num_limit o)%Z →
  ∃ sampled_tests ordered_tests r st',
    plan o run_only (Scenario.conversations s)
      (mkHState 0 0 0 0 [] [] (stdout st) (world st))
    = (Returned ([("sanity", Scenario.sanity s)], sampled_tests, ordered_tests),
       mkHState 0 0 0 0 [] [] (stdout st) (world st))
    ∧ run_conversations o run_only (Scenario.conversations s) st = (r, st')
    ∧ good st' + bad st' + xfail st' + xpass st' = length ordered_tests
    ∧ length ordered_tests = length sampled_tests + 2
    ∧ world st' = world_after ordered_tests (world st).
Proof.
  intros Hn.
  destruct (run_conversations_spec o run_only (Scenario.conversations s)
              (Scenario.sanity s) st (get_sanity s) Hn)
    as (sampled & ordered & rest & booked & Hplan & Hord & Hbooked & Hrun).
  exists sampled, ordered. eexists _, _.
  split; [exact Hplan|]. split; [exact Hrun|].
  unfold with_stdout. cbn [good bad xfail xpass world]. split; [|split].
  - rewrite Hbooked. unfold booked_all. cbn [good bad xfail xpass]. cbn [Nat.add].
    rewrite count_total. apply length_run_results.
  - rewrite Hord, !length_app. cbn [length]. lia.
  - rewrite Hbooked. reflexivity.
Qed.

End RunSizeFacts.

(** X3. Without an explicit selection set, a positive limit [N] and an
    exclusion set with [N] plus its size below 5114 make [main] sample
    exactly [N] tests and run [N + 2]: good + bad + xfail + xpass is
    [N + 2] when the report is written. With no options at all that is
    502. *)
Theorem run_executes_limit_plus_two `{Platform} (o : Opt.t) (s : Setup) (st : HState) :
  (0 < Opt.num_limit o)%Z →
  (Opt.num_limit o + Z.of_nat (size (Opt.run_exclude o)) < 5114)%Z →
  ∃ sampled_tests ordered_tests r st',
    plan o None (Scenario.conversations s) st
    = (Returned ([("sanity", Scenario.sanity s)], sampled_tests, ordered_tests), st)
    ∧ Z.of_nat (length sampled_tests) = Opt.num_limit o
    ∧ run_conversations o None (Scenario.conversations s) st = (r, st')
    ∧ Z.of_nat (good st' + bad st' + xfail st' + xpass st') = (Opt.num_limit o + 2)%Z.
Proof.
  intros Hpos Hexcl.
  assert (Hn : (0 ≤ Opt.num_limit o)%Z) by lia.
  destruct (plan_without_selection o (Scenario.conversations s) (Scenario.sanity s)
              st (get_sanity s) (NoDup_keys_conversations s) Hn)
    as (sampled & Hplan & _ & _ & Hlen & _).
  assert (Hsize : Z.of_nat (length sampled) = Opt.num_limit o).
  { apply Hlen. split; [exact Hpos|].
    pose proof (length_eligible (Scenario.conversations s) (Opt.run_exclude o)
                  (NoDup_keys_conversations s)) as Hel.
    pose proof (length_conversations s) as Hall.
    revert Hel Hall. unfold len.
    generalize (length (filter (λ kv, kv.1 ≠ "sanity" ∧ kv.1 ∉ Opt.run_exclude o)
                          (Scenario.conversations s))).
    generalize (length (Scenario.conversations s)).
    intros n m Hel Hall. destruct (dhe s), (ems s); lia. }
  destruct (counters_total_helper o None s st Hn)
    as (sampled' & ordered' & r & st' & Hplan' & Hrun & Hsum & Hlen' & _).
  apply (plan_state _ _ _ _ _ st) in Hplan'. rewrite Hplan in Hplan'.
  injection Hplan' as <- <-.
  exists sampled, ([("sanity", Scenario.sanity s)] ++ sampled
                   ++ [("sanity", Scenario.sanity s)]), r, st'.
  split; [exact Hplan|]. split; [exact Hsize|]. split; [exact Hrun|].
  rewrite Hsum, Hlen'. lia.
Qed.

Lemma run_executes_limit_plus_two_witness :
  ∃ r st',
    run_conversations (H := Runner.scripted (λ _, []) (λ _, []))
      Opt.defaults None
      (Scenario.conversations (mkSetup "localhost" 4433 [47%Z] false false))
      (Runner.start (λ _, []) (λ _, []))
    = (r, st')
    ∧ Z.of_nat (good st' + bad st' + xfail st' + xpass st') = 502%Z.
Proof.
  destruct (run_executes_limit_plus_two (H := Runner.scripted (λ _, []) (λ _, []))
              Opt.defaults (mkSetup "localhost" 4433 [47%Z] false false)
              (Runner.start (λ _, []) (λ _, [])))
    as (sampled & ordered & r & st' & _ & _ & Hrun & Hsum).
  - cbn [Opt.num_limit Opt.defaults]. lia.
  - cbn [Opt.num_limit Opt.run_exclude Opt.defaults]. rewrite size_empty. lia.
  - exists r, st'. split; [exact Hrun|exact Hsum].
Defined.

(** The plan with a selection set, for any dictionary that holds the
    sanity conversation. *)
Lemma plan_with_selection `{Platform} (o : Opt.t) (only : gset string)
    (conversations : list (string * Conversation)) (sanity : Conversation)
    (st : HState) :
  Dict.get "sanity" conversations = Some sanity →
  NoDup (Dict.keys conversations) →
  only ≠ ∅ →
  (0 ≤ Opt.num_limit o)%Z →
  ∃ sampled_tests,
    plan o (Some only) conversations st
    = (Returned ([("sanity", sanity)], sampled_tests,
                 [("sanity", sanity)] ++ sampled_tests ++ [("sanity", sanity)]), st)
    ∧ NoDup sampled_tests.*1
    ∧ (∀ kv, kv ∈ sampled_tests → kv ∈ conversations ∧ kv.1 ∈ only)
    ∧ length sampled_tests ≤ size only
    ∧ (Opt.num_limit o = 0%Z ∨ (Z.of_nat (size only) ≤ Opt.num_limit o)%Z →
         sampled_tests ≡ₚ filter (λ kv, kv.1 ∈ only) conversations).
Proof.
  intros Hs Hnd Hne Hn.
  rewrite (plan_spec o (Some only) conversations sanity st Hs Hn).
  unfold select. rewrite decide_True by exact Hne. cbn [fst snd].
  assert (Hnde : NoDup (filter (λ kv, kv.1 ∈ only) conversations).*1)
    by (apply NoDup_fst_filter; exact Hnd).
  assert (Hsub : ∀ kv, kv ∈ filter (λ kv, kv.1 ∈ only) conversations →
                       kv ∈ conversations ∧ kv.1 ∈ only).
  { intros kv Hin. apply list_elem_of_filter in Hin as [? ?]. auto. }
  pose proof (length_named_le_size conversations only Hnd) as Hsize.
  assert (Hele : length (filter (λ kv, kv.1 ∈ only) conversations)
                 ≤ length conversations) by apply length_filter.
  revert Hnde Hsub Hsize Hele.
  generalize (filter (λ kv, kv.1 ∈ only) conversations).
  intros regular Hnde Hsub Hsize Hele. unfold len.
  set (k := Z.to_nat _).
  assert (Hk : k ≤ length regular) by (subst k; repeat case_decide; lia).
  destruct (draw_spec k 0 regular Hk) as (rest & Hperm & Hlen).
  eexists. split; [reflexivity|]. split.
  { apply (NoDup_Permutation_proper _ _ (fmap_Permutation fst _ _ Hperm)) in Hnde.
    rewrite fmap_app in Hnde. apply NoDup_app in Hnde. tauto. }
  split.
  { intros kv Hkv. apply Hsub.
    apply (elem_of_Permutation_proper kv _ _ Hperm), elem_of_app. left. exact Hkv. }
  split; [lia|].
  intros Hall.
  assert (Hkall : k = length regular) by (subst k; repeat case_decide; lia).
  rewrite Hkall. apply draw_all.
Qed.

(** X4. With probe names on the command line and a limit that is not
    negative, only conversations with one of these names are sampled,
    each at most once and no more than there are names; the exclusion
    set plays no part, and 'sanity' is sampled too if it is named. With
    the limit zero, or not below the number of names, every named
    conversation of the population is sampled. *)
Theorem selection_by_name `{Platform} (o : Opt.t) (only : gset string)
    (s : Setup) (st : HState) :
  only ≠ ∅ →
  (0 ≤ Opt.num_limit o)%Z →
  ∃ sampled_tests,
    plan o (Some only) (Scenario.conversations s) st
    = (Returned ([("sanity", Scenario.sanity s)], sampled_tests,
                 [("sanity", Scenario.sanity s)] ++ sampled_tests
                 ++ [("sanity", Scenario.sanity s)]), st)
    ∧ NoDup sampled_tests.*1
    ∧ (∀ kv, kv ∈ sampled_tests → kv ∈ Scenario.conversations s ∧ kv.1 ∈ only)
    ∧ length sampled_tests ≤ size only
    ∧ (Opt.num_limit o = 0%Z ∨ (Z.of_nat (size only) ≤ Opt.num_limit o)%Z →
         sampled_tests ≡ₚ filter (λ kv, kv.1 ∈ only) (Scenario.conversations s))
    ∧ (Opt.num_limit o = 0%Z ∨ (Z.of_nat (size only) ≤ Opt.num_limit o)%Z →
         "sanity" ∈ only → ("sanity", Scenario.sanity s) ∈ sampled_tests).
Proof.
  intros Hne Hn.
  destruct (plan_with_selection o only (Scenario.conversations s) (Scenario.sanity s)
              st (get_sanity s) (NoDup_keys_conversations s) Hne Hn)
    as (sampled & Hplan & Hnd & Hin & Hsize & Hall).
  exists sampled. split; [exact Hplan|]. split; [exact Hnd|]. split; [exact Hin|].
  split; [exact Hsize|]. split; [exact Hall|].
  intros Hlim Hsanity.
  apply (elem_of_Permutation_proper _ _ _ (Hall Hlim)).
  apply list_elem_of_filter. split; [exact Hsanity|].
  apply get_Some_elem_of, get_sanity.
Qed.

Lemma selection_by_name_witness :
  ∃ sampled_tests,
    plan (H := Runner.scripted (λ _, []) (λ _, []))
      (Opt.set_num_limit 0 Opt.defaults) (Some {["sanity"]})
      (Scenario.conversations (mkSetup "localhost" 4433 [47%Z] false false))
      (Runner.start (λ _, []) (λ _, []))
    = (Returned
         ([("sanity", Scenario.sanity (mkSetup "localhost" 4433 [47%Z] false false))],
          sampled_tests,
          [("sanity", Scenario.sanity (mkSetup "localhost" 4433 [47%Z] false false))]
          ++ sampled_tests
          ++ [("sanity", Scenario.sanity (mkSetup "localhost" 4433 [47%Z] false false))]),
       Runner.start (λ _, []) (λ _, []))
    ∧ length sampled_tests ≤ 1.
Proof.
  destruct (selection_by_name (H := Runner.scripted (λ _, []) (λ _, []))
              (Opt.set_num_limit 0 Opt.defaults) {["sanity"]}
              (mkSetup "localhost" 4433 [47%Z] false false)
              (Runner.start (λ _, []) (λ _, [])))
    as (sampled & Hplan & _ & _ & Hsize & _).
  - apply non_empty_singleton_L.
  - cbn [Opt.num_limit Opt.set_num_limit]. lia.
  - exists sampled. split; [exact Hplan|]. by rewrite size_singleton in Hsize.
Defined.

Lemma select_negative `{Platform} (o : Opt.t) (run_only : option (gset string))
    (conversations : list (string * Conversation)) :
  (Opt.num_limit o < 0)%Z →
  (Z.min (select o run_only conversations).1
         (len (select o run_only conversations).2) < 0)%Z.
Proof.
  intros Hn. unfold select, len.
  destruct run_only as [only|]; [destruct (decide (only ≠ ∅))|];
    repeat case_decide; cbn [fst snd]; lia.
Qed.

(** X5. With a negative limit [main] stops at [random.sample] with a
    ValueError, whatever else was asked for: the counters have been
    reset, nothing has been printed and no conversation has been run. *)
Theorem negative_limit_aborts `{Platform} (o : Opt.t)
    (run_only : option (gset string)) (s : Setup) (st : HState) :
  (Opt.num_limit o < 0)%Z →
  run_conversations o run_only (Scenario.conversations s) st
  = (Raised (ValueError "Sample larger than population or is negative"),
     mkHState 0 0 0 0 [] [] (stdout st) (world st)).
Proof.
  intros Hn. unfold run_conversations.
  unfold mbind at 1, M_bind at 1. unfold init_counters at 1, modify at 1.
  unfold mbind at 1, M_bind at 1.
  unfold plan, getitem. rewrite get_sanity.
  pose proof (select_negative o run_only (Scenario.conversations s) Hn) as Hk.
  destruct (select o run_only (Scenario.conversations s)) as [num_limit regular_tests].
  cbn [fst snd] in Hk.
  unfold mbind, M_bind, mret, M_ret. rewrite sample_negative by exact Hk.
  reflexivity.
Qed.

Lemma negative_limit_aborts_witness :
  run_conversations (H := Runner.scripted (λ _, []) (λ _, []))
    (Opt.set_num_limit (-1) Opt.defaults) None
    (Scenario.conversations (mkSetup "localhost" 4433 [47%Z] false false))
    (Runner.start (λ _, []) (λ _, []))
  = (Raised (ValueError "Sample larger than population or is negative"),
     Runner.start (λ _, []) (λ _, [])).
Proof.
  apply (negative_limit_aborts (H := Runner.scripted (λ _, []) (λ _, []))).
  cbn [Opt.num_limit Opt.set_num_limit]. lia.
Defined.

(** ** Tests that are not expected to fail, and the required substring *)

(** X6. For a conversation whose name is not in the expected-failure
    registry, one round of the loop returns and: if the run raised
    nothing, it adds one to good and prints the name and 'OK'; if it
    raised, it adds one to bad, appends the name to failed and prints the
    name, 'Error while processing' and the traceback. xfail, xpass and
    xpassed stay as they were. *)
Theorem regular_test_classification `{Platform}
    (expected_failures : gmap string (option string))
    (c_name : string) (c_test : Conversation) (st : HState) :
  expected_failures !! c_name = None →
  ∃ st',
    run_test expected_failures (c_name, c_test) st = (Returned tt, st')
    ∧ world st' = (runner_run c_test (world st)).2
    ∧ xfail st' = xfail st ∧ xpass st' = xpass st ∧ xpassed st' = xpassed st
    ∧ ((runner_run c_test (world st)).1 = None →
         good st' = good st + 1 ∧ bad st' = bad st ∧ failed st' = failed st
         ∧ stdout st' = stdout st ++ [c_name +:+ " ..."; "OK" +:+ LF])
    ∧ (∀ exp,
         (runner_run c_test (world st)).1 = Some exp →
         bad st' = bad st + 1 ∧ failed st' = failed st ++ [c_name]
         ∧ good st' = good st
         ∧ stdout st'
           = stdout st ++ [c_name +:+ " ..."; "Error while processing"; format_exc exp]).
Proof.
  intros Hef. eexists. split; [apply run_test_booked|].
  unfold booked, classify, lines_of.
  cbn [good bad xfail xpass failed xpassed stdout world name outcome error].
  rewrite Hef.
  destruct (runner_run c_test (world st)) as [[exp|] w]; cbn [fst snd];
    rewrite ?decide_True by reflexivity;
    rewrite ?decide_False by discriminate;
    rewrite ?Nat.add_0_r, ?app_nil_r;
    (split; [reflexivity|]); (split; [reflexivity|]);
    (split; [reflexivity|]); (split; [reflexivity|]);
    (split;
     [ intros Hnone; try discriminate Hnone; repeat split
     | intros exp' Hexp; try discriminate Hexp; injection Hexp as <-;
       repeat split ]).
Qed.

Lemma regular_test_classification_witness :
  ∃ st',
    run_test (H := Runner.scripted (λ _, []) (λ _, [])) ∅
      ("sanity", Scenario.sanity (mkSetup "localhost" 4433 [47%Z] false false))
      (Runner.start (λ _, []) (λ _, []))
    = (Returned tt, st')
    ∧ xfail st' = 0.
Proof.
  destruct (regular_test_classification (H := Runner.scripted (λ _, []) (λ _, []))
              ∅ "sanity"
              (Scenario.sanity (mkSetup "localhost" 4433 [47%Z] false false))
              (Runner.start (λ _, []) (λ _, [])))
    as (st' & Hrun & _ & Hxfail & _).
  - apply lookup_empty.
  - exists st'. split; [exact Hrun|exact Hxfail].
Defined.

Lemma prefix_spec (sub s : string) :
  String.prefix sub s = true ↔ ∃ post, s = sub +:+ post.
Proof.
  revert s. induction sub as [|a sub IH]; intros s.
  - split; [intros _; by exists s|]. intros _. by destruct s.
  - destruct s as [|b s]; cbn [String.prefix].
    + split; [discriminate|]. intros [post Hpost]. discriminate Hpost.
    + destruct (Ascii.ascii_dec a b) as [->|Hne].
      * rewrite IH. split.
        -- intros [post ->]. by exists post.
        -- intros [post Hpost]. injection Hpost as ->. by exists post.
      * split; [discriminate|]. intros [post Hpost]. injection Hpost as Hab _.
        congruence.
Qed.

(** [sub in s] holds exactly when [s] is [sub] with something before and
    something after. *)
Lemma str_in_spec (sub s : string) :
  str_in sub s = true ↔ ∃ pre post, s = pre +:+ sub +:+ post.
Proof.
  induction s as [|b s IH]; cbn [str_in].
  - rewrite orb_false_r, prefix_spec. split.
    + intros [post Hpost]. by exists "", post.
    + intros (pre & post & Hs). destruct pre; [by exists post|discriminate Hs].
  - rewrite orb_true_iff, prefix_spec, IH. split.
    + intros [[post Hpost]|(pre & post & ->)].
      * by exists "", post.
      * by exists (String b pre), post.
    + intros (pre & post & Hs). destruct pre as [|a pre].
      * left. by exists post.
      * right. injection Hs as -> ->. by exists pre, post.
Qed.

(** X7. For a probe registered with a required message: a failure is
    counted as an expected failure exactly when the string of the
    exception contains the required message somewhere, and as a failure
    otherwise; the empty message is contained in every string. *)
Theorem required_message_anywhere `{Platform}
    (expected_failures : gmap string (option string))
    (c_name : string) (c_test : Conversation) (st : HState)
    (required : string) (exp : Exception) :
  expected_failures !! c_name = Some (Some required) →
  (runner_run c_test (world st)).1 = Some exp →
  ∃ st',
    run_test expected_failures (c_name, c_test) st = (Returned tt, st')
    ∧ ((∃ pre post, exc_str exp = pre +:+ required +:+ post) →
         xfail st' = xfail st + 1 ∧ bad st' = bad st ∧ failed st' = failed st)
    ∧ ((¬ ∃ pre post, exc_str exp = pre +:+ required +:+ post) →
         bad st' = bad st + 1 ∧ xfail st' = xfail st
         ∧ failed st' = failed st ++ [c_name])
    ∧ (required = "" → xfail st' = xfail st + 1).
Proof.
  intros Hef Hexp. eexists. split; [apply run_test_booked|].
  unfold booked, classify, lines_of.
  cbn [good bad xfail xpass failed xpassed stdout world name outcome error].
  rewrite Hef, Hexp.
  assert (Hempty : required = "" → str_in required (exc_str exp) = true).
  { intros ->. apply str_in_spec. by exists "", (exc_str exp). }
  destruct (str_in required (exc_str exp)) eqn:Hin;
    rewrite ?decide_True by reflexivity;
    rewrite ?decide_False by discriminate;
    rewrite ?Nat.add_0_r, ?app_nil_r.
  - split; [intros _; repeat split|]. split; [|intros _; reflexivity].
    intros Hnot. exfalso. apply Hnot, str_in_spec, Hin.
  - split; [|split; [intros _; repeat split|]].
    + intros Hsome. apply str_in_spec in Hsome. congruence.
    + intros Hreq. specialize (Hempty Hreq). discriminate Hempty.
Qed.

Lemma required_message_anywhere_witness :
  ∃ st',
    run_test (H := Runner.scripted (λ _, []) (λ _, []))
      {["sanity" := Some "data"]}
      ("sanity", Scenario.sanity (mkSetup "localhost" 4433 [47%Z] false false))
      (Runner.start (λ _, []) (λ _, []))
    = (Returned tt, st')
    ∧ xfail st' = 1.
Proof.
  destruct (required_message_anywhere (H := Runner.scripted (λ _, []) (λ _, []))
              {["sanity" := Some "data"]} "sanity"
              (Scenario.sanity (mkSetup "localhost" 4433 [47%Z] false false))
              (Runner.start (λ _, []) (λ _, [])) "data" Runner.TransportError)
    as (st' & Hrun & Hin & _).
  - apply lookup_singleton_eq.
  - vm_compute. reflexivity.
  - exists st'. split; [exact Hrun|].
    apply Hin. exists "No ", " from the target". reflexivity.
Defined.

(** ** What the options leave behind *)

Lemma option_args_snoc (opt : string) (pre : list (string * string)) (o a : string) :
  option_args opt (pre ++ [(o, a)])
  = option_args opt pre ++ (if decide (o = opt) then [a] else []).
Proof.
  unfold option_args. rewrite filter_app, fmap_app. f_equal.
  cbn [filter list_filter fst]. by case_decide.
Qed.

Section OptionFields.
Context `{Platform}.

Lemma handle_option_fields (o o' : Opt.t) (opt arg : string) (st st' : HState) :
  handle_option o opt arg st = (Returned o', st') →
  (∀ l, Opt.last_exp_tmp o = Some l → l ∈ dom (Opt.expected_failures o)) →
  Opt.run_exclude o'
  = (if decide (opt = "-e") then Opt.run_exclude o ∪ {[arg]} else Opt.run_exclude o)
  ∧ dom (Opt.expected_failures o')
    = (if decide (opt = "-x") then dom (Opt.expected_failures o) ∪ {[arg]}
       else dom (Opt.expected_failures o))
  ∧ Opt.dhe o' = (Opt.dhe o || bool_decide (opt = "-d"))
  ∧ Opt.ems o' = (Opt.ems o || bool_decide (opt = "-M" ∨ opt = "--ems"))
  ∧ (∀ l, Opt.last_exp_tmp o' = Some l → l ∈ dom (Opt.expected_failures o')).
Proof.
  unfold handle_option, mbind, M_bind, mret, M_ret, raise, sys_exit.
  intros Hrun Hinv.
  repeat match type of Hrun with
         | context [decide ?P] => destruct (decide P)
         | context [match ?x with _ => _ end] => destruct x eqn:?
         end;
    try discriminate Hrun;
    injection Hrun as <- <-;
    cbn [Opt.run_exclude Opt.expected_failures Opt.dhe Opt.ems Opt.last_exp_tmp
         Opt.set_host Opt.set_port Opt.set_run_exclude
         Opt.set_expected_failures Opt.set_last_exp_tmp Opt.set_num_limit
         Opt.set_dhe Opt.set_ciphers Opt.set_ems];
    rewrite ?dom_insert_L;
    repeat split;
    repeat case_decide; repeat case_bool_decide;
    rewrite ?orb_true_r, ?orb_false_r;
    try reflexivity; try congruence; try tauto;
    try (intros l' Hl'; specialize (Hinv l')); set_solver.
Qed.

Lemma handle_options_fields (pre : list (string * string)) : ∀ (o : Opt.t) (st st' : HState),
  handle_options pre Opt.defaults st = (Returned o, st') →
  Opt.run_exclude o = list_to_set (option_args "-e" pre)
  ∧ dom (Opt.expected_failures o) = list_to_set (option_args "-x" pre)
  ∧ Opt.dhe o = bool_decide ("-d" ∈ pre.*1)
  ∧ Opt.ems o = bool_decide ("-M" ∈ pre.*1 ∨ "--ems" ∈ pre.*1)
  ∧ (∀ l, Opt.last_exp_tmp o = Some l → l ∈ dom (Opt.expected_failures o)).
Proof.
  induction pre as [|[opt arg] pre IH] using rev_ind; intros o st st'.
  - intros [= <- <-]. cbn [Opt.defaults Opt.run_exclude Opt.expected_failures Opt.dhe Opt.ems Opt.last_exp_tmp option_args filter list_filter fmap list_fmap].
    rewrite dom_empty_L. split; [reflexivity|]. split; [reflexivity|].
    split; [reflexivity|]. split; [reflexivity|]. intros l Hl. discriminate Hl.
  - rewrite handle_options_app.
    destruct (handle_options pre Opt.defaults st) as [[o1| |] st1] eqn:Hpre;
      [|discriminate..].
    destruct (IH o1 st st1 Hpre) as (Hex & Hdom & Hdhe & Hems & Hinv).
    cbn [handle_options]. unfold mbind, M_bind.
    destruct (handle_option o1 opt arg st1) as [[o2| |] st2] eqn:Hopt; [|discriminate..].
    intros [= <- <-].
    destruct (handle_option_fields _ _ _ _ _ _ Hopt Hinv)
      as (Hex2 & Hdom2 & Hdhe2 & Hems2 & Hinv2).
    rewrite Hex2, Hdom2, Hdhe2, Hems2, Hex, Hdom, Hdhe, Hems.
    rewrite !option_args_snoc, !list_to_set_app_L, fmap_app.
    cbn [fmap list_fmap fst].
    split; [|split; [|split; [|split]]].
    + clear. case_decide;
        rewrite ?list_to_set_cons, ?list_to_set_nil, ?union_empty_r_L; reflexivity.
    + clear. case_decide;
        rewrite ?list_to_set_cons, ?list_to_set_nil, ?union_empty_r_L; reflexivity.
    + clear. rewrite <- bool_decide_or. apply bool_decide_ext.
      rewrite elem_of_app, list_elem_of_singleton. split; intros [?|?]; auto.
    + clear. rewrite <- bool_decide_or. apply bool_decide_ext.
      rewrite !elem_of_app, !list_elem_of_singleton.
      split; [intros [[?|?]|[?|?]]|intros [[?|?]|[?|?]]]; auto.
    + rewrite <- Hdom, <- Hdom2. exact Hinv2.
Qed.

End OptionFields.

(** X8. When the options are handled to the end, nothing has been printed
    or run, and the options record what was given: the exclusion set is
    the set of the [-e] names, the registry has an entry for exactly the
    [-x] names, dhe is set exactly when [-d] was given and ems exactly
    when [-M] or [--ems] was. *)
Theorem options_record_what_was_given `{Platform} (opts : list (string * string))
    (o : Opt.t) (st st' : HState) :
  handle_options opts Opt.defaults st = (Returned o, st') →
  st' = st
  ∧ Opt.run_exclude o = list_to_set (option_args "-e" opts)
  ∧ dom (Opt.expected_failures o) = list_to_set (option_args "-x" opts)
  ∧ Opt.dhe o = bool_decide ("-d" ∈ opts.*1)
  ∧ Opt.ems o = bool_decide ("-M" ∈ opts.*1 ∨ "--ems" ∈ opts.*1).
Proof.
  intros Hrun.
  destruct (handle_options_spec opts o st st' Hrun) as [Hst _].
  destruct (handle_options_fields opts o st st' Hrun) as (Hex & Hdom & Hdhe & Hems & _).
  split; [exact Hst|]. split; [exact Hex|]. split; [exact Hdom|].
  split; [exact Hdhe|exact Hems].
Qed.

Lemma options_record_what_was_given_witness :
  handle_options (H := Runner.scripted (λ _, []) (λ _, []))
    [("-d", "")] Opt.defaults (Runner.start (λ _, []) (λ _, []))
  = (Returned (Opt.set_dhe true Opt.defaults), Runner.start (λ _, []) (λ _, []))
  ∧ Opt.dhe (Opt.set_dhe true Opt.defaults) = bool_decide ("-d" ∈ [("-d", "")].*1).
Proof.
  split; [reflexivity|].
  destruct (options_record_what_was_given (H := Runner.scripted (λ _, []) (λ _, []))
              [("-d", "")] (Opt.set_dhe true Opt.defaults)
              (Runner.start (λ _, []) (λ _, [])) (Runner.start (λ _, []) (λ _, [])))
    as (_ & _ & _ & Hdhe & _).
  - reflexivity.
  - exact Hdhe.
Defined.

Section OptionEnds.
Context `{Platform}.

Lemma help_msg_spec (st : HState) :
  ∃ lines,
    help_msg st = (Returned tt, with_stdout (stdout st ++ lines) st)
    ∧ length lines = 22
    ∧ head lines
      = Some "Usage: <script-name> [-h hostname] [-p port] [[probe-name] ...]".
Proof.
  unfold help_msg.
  repeat (rewrite print_bind; cbv beta;
          rewrite ?with_stdout_with_stdout, ?stdout_with_stdout).
  rewrite print_run, ?with_stdout_with_stdout, ?stdout_with_stdout.
  rewrite <- ?app_assoc. cbn [app].
  (eexists; split; [reflexivity|]; split; reflexivity).
Qed.

(** How handling one option can end. *)
Lemma handle_option_outcome (o : Opt.t) (opt arg : string) (st : HState) :
  match handle_option o opt arg st with
  | (Returned _, st') => st' = st
  | (Raised e, st') => st' = st ∧ exc_class e = "ValueError"
  | (Exited c, st') =>
      c = 0%Z ∧ opt = "--help"
      ∧ ∃ lines, st' = with_stdout (stdout st ++ lines) st ∧ length lines = 22
  end.
Proof.
  unfold handle_option.
  destruct (help_msg_spec st) as (lines & Hhelp & Hlen & _).
  repeat case_decide;
    unfold int_or_raise, mbind, M_bind, mret, M_ret, raise, sys_exit;
    rewrite ?Hhelp;
    repeat case_match; simplify_eq;
    try reflexivity; try (split; reflexivity).
  split; [reflexivity|]. split; [reflexivity|]. exists lines. split; [reflexivity|exact Hlen].
Qed.

End OptionEnds.

(** X9. Option handling ends in one of three ways: it returns, with
    nothing printed; it raises a ValueError, with nothing printed; or it
    leaves with status 0, which only happens at [--help]. In no case has
    a conversation been run or a counter been changed. *)
Theorem option_handling_ends `{Platform} (opts : list (string * string))
    (o : Opt.t) (st : HState) :
  let r := (handle_options opts o st).1 in
  let st' := (handle_options opts o st).2 in
  world st' = world st
  ∧ good st' = good st ∧ bad st' = bad st ∧ xfail st' = xfail st
  ∧ xpass st' = xpass st ∧ failed st' = failed st ∧ xpassed st' = xpassed st
  ∧ (∀ o', r = Returned o' → st' = st)
  ∧ (∀ e, r = Raised e → exc_class e = "ValueError" ∧ st' = st)
  ∧ (∀ c, r = Exited c → c = 0%Z ∧ "--help" ∈ opts.*1).
Proof.
  cbv zeta. revert o. induction opts as [|[opt arg] opts IH]; intros o.
  - cbn [handle_options fst snd]. unfold mret, M_ret. cbn [fst snd].
    split_and!; try reflexivity; intros x Hx; discriminate Hx.
  - cbn [handle_options]. unfold mbind, M_bind.
    pose proof (handle_option_outcome o opt arg st) as Hstep.
    destruct (handle_option o opt arg st) as [[o'|e|c] st1]; cbv beta iota.
    + subst st1.
      destruct (IH o') as (Hw & Hg & Hb & Hxf & Hxp & Hf & Hxpd & Hret & Hraise & Hexit).
      split_and!; try assumption.
      intros c Hc. destruct (Hexit c Hc) as [-> Hin]. split; [reflexivity|].
      rewrite fmap_cons. by right.
    + destruct Hstep as [-> Hclass]. cbn [fst snd].
      split_and!; try reflexivity;
        intros x Hx; try discriminate Hx.
      injection Hx as <-. split; [exact Hclass|reflexivity].
    + destruct Hstep as (-> & -> & lines & -> & _). cbn [fst snd].
      split_and!; try reflexivity;
        intros x Hx; try discriminate Hx.
      injection Hx as <-. split; [reflexivity|].
      rewrite fmap_cons. by left.
Qed.

(** X10. When the options before a [--help] are handled without ending
    the run, [main] prints the 22 lines of the usage message, the first
    of which begins with 'Usage:', and leaves with status 0: whatever
    follows on the command line is not looked at and no conversation is
    run. *)
Theorem help_prints_usage_and_exits `{Platform} (pre post : list (string * string))
    (arg : string) (args : list string) (o : Opt.t) (st st1 : HState) :
  handle_options pre Opt.defaults st = (Returned o, st1) →
  ∃ lines,
    main (pre ++ ("--help", arg) :: post) args st
    = (Exited 0%Z, with_stdout (stdout st ++ lines) st)
    ∧ length lines = 22
    ∧ head lines
      = Some "Usage: <script-name> [-h hostname] [-p port] [[probe-name] ...]".
Proof.
  intros Hpre. destruct (handle_options_spec pre o st st1 Hpre) as [-> _].
  destruct (help_msg_spec st) as (lines & Hhelp & Hlen & Hhead).
  exists lines. split; [|split; [exact Hlen|exact Hhead]].
  unfold main. unfold mbind at 1, M_bind at 1.
  rewrite handle_options_app, Hpre. cbn [handle_options].
  unfold mbind at 1, M_bind at 1.
  assert (Hopt : handle_option o "--help" arg st
                 = (Exited 0%Z, with_stdout (stdout st ++ lines) st)).
  { unfold handle_option.
    repeat (rewrite decide_False by (try discriminate; intros [?|?]; discriminate)).
    rewrite decide_True by reflexivity.
    unfold mbind, M_bind, sys_exit. rewrite Hhelp. reflexivity. }
  rewrite Hopt. reflexivity.
Qed.

Lemma help_prints_usage_and_exits_witness :
  ∃ lines,
    main (H := Runner.scripted (λ _, []) (λ _, []))
      ([] ++ ("--help", "") :: []) []
      (Runner.start (λ _, []) (λ _, []))
    = (Exited 0%Z,
       with_stdout (stdout (Runner.start (λ _, []) (λ _, [])) ++ lines)
         (Runner.start (λ _, []) (λ _, [])))
    ∧ length lines = 22.
Proof.
  destruct (help_prints_usage_and_exits (H := Runner.scripted (λ _, []) (λ _, []))
              [] [] "" [] Opt.defaults
              (Runner.start (λ _, []) (λ _, [])) (Runner.start (λ _, []) (λ _, [])))
    as (lines & Hrun & Hlen & _).
  - reflexivity.
  - exists lines. split; [exact Hrun|exact Hlen].
Defined.

(** ** The setup and the shape of the conversations *)

(** X11. The setup taken from the options always has a cipher suite to
    offer, keeps host, port and ems, and never drops [-d]: without [-C]
    the single suite is the ECDHE-RSA one with [-d] and the RSA one
    without; with [-C c] the suite is [c], and dhe is set when [-d] was
    given or [c] is one of the ECDH or DH suites. *)
Theorem setup_keeps_flags_and_ciphers `{Platform} (o : Opt.t) :
  ciphers (setup_of o) ≠ []
  ∧ host (setup_of o) = Opt.host o
  ∧ port (setup_of o) = Opt.port o
  ∧ ems (setup_of o) = Opt.ems o
  ∧ (Opt.dhe o = true → dhe (setup_of o) = true)
  ∧ (Opt.ciphers o = None →
       ciphers (setup_of o)
       = [if Opt.dhe o then CipherSuite.TLS_ECDHE_RSA_WITH_AES_128_CBC_SHA
          else CipherSuite.TLS_RSA_WITH_AES_128_CBC_SHA]
       ∧ dhe (setup_of o) = Opt.dhe o)
  ∧ (∀ c, Opt.ciphers o = Some [c] →
       ciphers (setup_of o) = [c]
       ∧ (dhe (setup_of o) = true
          ↔ Opt.dhe o = true ∨ c ∈ ecdhAllSuites ∨ c ∈ dhAllSuites)).
Proof.
  unfold setup_of.
  destruct (Opt.ciphers o) as [[|c cs]|] eqn:Hc; cbn [ciphers host port ems dhe].
  - split; [destruct (Opt.dhe o); discriminate|].
    repeat (split; [reflexivity|]).
    split; [tauto|]. split; [discriminate|]. intros c Hc'. discriminate Hc'.
  - split; [discriminate|]. repeat (split; [reflexivity|]).
    split; [intros ->; reflexivity|]. split; [discriminate|].
    intros c' Hc'. injection Hc' as <- <-. split; [reflexivity|].
    destruct (Opt.dhe o); cbn [negb].
    + split; auto.
    + rewrite orb_true_iff, !bool_decide_eq_true. split.
      * intros [?|?]; auto.
      * intros [?|[?|?]]; [discriminate|auto..].
  - split; [destruct (Opt.dhe o); discriminate|].
    repeat (split; [reflexivity|]).
    split; [tauto|].
    split; [intros _; split; [destruct (Opt.dhe o)|]; reflexivity|].
    intros c Hc'. discriminate Hc'.
Qed.

Lemma is_Some_mutation_plain (m : Message) : ¬ is_Some (mutation (plain m)).
Proof. intros [x Hx]. discriminate Hx. Qed.

Lemma fuzzed_shape (s : Setup) (hello_gen : Message)
    (mutation : gmap nat Mutation.Op) (alert : Message) :
  let c := Scenario.fuzzed s hello_gen mutation alert in
  root c = 0
  ∧ is_chain (nodes c) 0 (nodes c) = true
  ∧ mutated_nodes c = [mkTreeNode (mkNode hello_gen (Some mutation)) [2] None]
  ∧ nodes c !! 1 = Some (mkTreeNode (mkNode hello_gen (Some mutation)) [2] None).
Proof. cbv zeta. split_and!; reflexivity. Qed.

Lemma sanity_shape (s : Setup) :
  root (Scenario.sanity s) = 0
  ∧ is_chain (nodes (Scenario.sanity s)) 0 (nodes (Scenario.sanity s)) = true
  ∧ mutated_nodes (Scenario.sanity s) = [].
Proof.
  unfold Scenario.sanity, Scenario.full_handshake.
  destruct (dhe s); split_and!; reflexivity.
Qed.

Lemma sanity_w_ext_shape (s : Setup) :
  root (Scenario.sanity_w_ext s) = 0
  ∧ is_chain (nodes (Scenario.sanity_w_ext s)) 0 (nodes (Scenario.sanity_w_ext s)) = true
  ∧ mutated_nodes (Scenario.sanity_w_ext s) = [].
Proof.
  unfold Scenario.sanity_w_ext, Scenario.full_handshake.
  destruct (dhe s); split_and!; reflexivity.
Qed.

Lemma assignments_shape (s : Setup) :
  Forall (λ kv,
    root kv.2 = 0
    ∧ is_chain (nodes kv.2) 0 (nodes kv.2) = true
    ∧ (mutated_nodes kv.2 = []
       ∨ ∃ tn, mutated_nodes kv.2 = [tn]
               ∧ nodes kv.2 !! 1 = Some tn
               ∧ is_client_hello (message (node tn)) = true))
    (Scenario.assignments s).
Proof.
  unfold Scenario.assignments. destruct (Scenario.not_ext s);
    forall_assignments;
    lazymatch goal with
    | |- context [Scenario.sanity _] =>
        destruct (sanity_shape s) as (? & ? & ?); auto
    | |- context [Scenario.sanity_w_ext _] =>
        destruct (sanity_w_ext_shape s) as (? & ? & ?); auto
    | |- context [Scenario.fuzzed ?s ?g ?m ?a] =>
        destruct (fuzzed_shape s g m a) as (? & ? & ? & ?);
        split; [assumption|]; split; [assumption|]; right;
        eexists; split; [eassumption|]; split; [eassumption|reflexivity]
    end.
Qed.

(** X12. Every conversation of the population is a chain that starts at
    its root, node 0: each node has one child, the next node, up to the
    last of the chain, and what follows the chain (the sibling of its
    last node) has no child. The sanity conversations carry no
    mutation; every conversation carries at most one, on its second
    node, and that node is the ClientHello. *)
Theorem only_the_client_hello_is_mutated (s : Setup) :
  Forall (λ kv,
    root kv.2 = 0
    ∧ is_chain (nodes kv.2) 0 (nodes kv.2) = true
    ∧ (mutated_nodes kv.2 = []
       ∨ ∃ tn, mutated_nodes kv.2 = [tn]
               ∧ nodes kv.2 !! 1 = Some tn
               ∧ is_client_hello (message (node tn)) = true))
    (Scenario.conversations s)
  ∧ mutated_nodes (Scenario.sanity s) = []
  ∧ mutated_nodes (Scenario.sanity_w_ext s) = [].
Proof.
  split; [|split; [apply sanity_shape|apply sanity_w_ext_shape]].
  rewrite conversations_eq_assignments. apply assignments_shape.
Qed.

(** ** The bytes the probes change *)

Lemma xors_singleton (P : nat → Mutation.Op → Prop) (k : nat) (v : N) :
  P k (Mutation.Xor v) → map_Forall P (Mutation.xors {[k := v]}).
Proof.
  intros HP. unfold Mutation.xors.
  apply map_Forall_fmap, map_Forall_singleton. exact HP.
Qed.

Lemma substitutions_singleton (P : nat → Mutation.Op → Prop) (k : nat) (v : N) :
  P k (Mutation.Subst v) → map_Forall P (Mutation.substitutions {[k := v]}).
Proof.
  intros HP. unfold Mutation.substitutions.
  apply map_Forall_fmap, map_Forall_singleton. exact HP.
Qed.

Lemma substitutions_pair (P : nat → Mutation.Op → Prop) (k1 k2 : nat) (v1 v2 : N) :
  P k1 (Mutation.Subst v1) → P k2 (Mutation.Subst v2) →
  map_Forall P (Mutation.substitutions (<[k1 := v1]> {[k2 := v2]})).
Proof.
  intros HP1 HP2. unfold Mutation.substitutions.
  apply map_Forall_fmap, map_Forall_insert_2; [exact HP1|].
  apply map_Forall_singleton. exact HP2.
Qed.

Lemma mutated_nodes_fuzzed (s : Setup) (hello_gen : Message)
    (mutation : gmap nat Mutation.Op) (alert : Message) :
  mutated_nodes (Scenario.fuzzed s hello_gen mutation alert)
  = [mkTreeNode (mkNode hello_gen (Some mutation)) [2] None].
Proof. reflexivity. Qed.

Lemma elem_of_range_byte (a : nat) (i : N) :
  i ∈ range a 256 → (N.of_nat a ≤ i ≤ 255)%N.
Proof. intros Hi%elem_of_range. lia. Qed.

Ltac forall_sweeps :=
  repeat lazymatch goal with
    | |- Forall _ [] => apply Forall_nil_2
    | |- Forall _ (_ ++ _) => apply Forall_app_2
    | |- Forall _ (_ :: _) => apply Forall_cons_2; cbn beta
    | |- Forall _ (_ <$> _) => apply Forall_fmap
    | |- Forall _ (_ ≫= _) => apply Forall_bind
    | |- Forall _ (filter _ (range _ _)) =>
        apply Forall_forall; intros ? [_ ?%elem_of_range_byte]%list_elem_of_filter
    | |- Forall _ (range _ _) =>
        apply Forall_forall; intros ? ?%elem_of_range_byte
    | |- (_ ∘ _) _ => unfold compose at 1; cbn beta
    end;
  cbn [snd fst].

Ltac header_byte :=
  split;
  [repeat first [apply list_elem_of_here | apply list_elem_of_further]
  |lia].

Lemma assignments_header_bytes (s : Setup) :
  Forall (λ kv,
    Forall (λ tn,
      ∃ m, mutation (node tn) = Some m
           ∧ map_Forall (λ (offset : nat) (op : Mutation.Op),
               offset ∈ [0; 38; 39; 40; 43; 45; 46]
               ∧ match op with
                 | Mutation.Xor v => (1 ≤ v ≤ 255)%N
                 | Mutation.Subst v => (v ≤ 255)%N
                 end) m)
      (mutated_nodes kv.2))
    (Scenario.assignments s).
Proof.
  unfold Scenario.assignments. destruct (Scenario.not_ext s).
  all: forall_sweeps.
  all: cbn [N.of_nat Pos.of_succ_nat Pos.succ] in *.
  all: lazymatch goal with
    | |- Forall _ (mutated_nodes (Scenario.sanity _)) =>
        destruct (sanity_shape s) as (_ & _ & ->); apply Forall_nil_2
    | |- Forall _ (mutated_nodes (Scenario.sanity_w_ext _)) =>
        destruct (sanity_w_ext_shape s) as (_ & _ & ->); apply Forall_nil_2
    | |- Forall _ (mutated_nodes (Scenario.fuzzed ?s ?g ?m ?a)) =>
        rewrite (mutated_nodes_fuzzed s g m a);
        apply Forall_cons_2; [|apply Forall_nil_2];
        eexists; split; [reflexivity|]
    end.
  all: lazymatch goal with
    | |- map_Forall _ (Mutation.xors {[_ := _]}) => apply xors_singleton
    | |- map_Forall _ (Mutation.substitutions {[_ := _]}) =>
        apply substitutions_singleton
    | |- map_Forall _ (Mutation.substitutions (<[_ := _]> {[_ := _]})) =>
        apply substitutions_pair
    end.
  all: header_byte.
Qed.

(** X13. Every mutation of the population changes bytes of the
    ClientHello header only: its offsets are among 0, 38, 39, 40, 43, 45
    and 46, every XOR mask is between 1 and 255, so that the byte does
    change, and every substituted value fits a byte. *)
Theorem mutations_change_header_bytes (s : Setup) :
  Forall (λ kv,
    Forall (λ tn,
      ∃ m, mutation (node tn) = Some m
           ∧ map_Forall (λ (offset : nat) (op : Mutation.Op),
               offset ∈ [0; 38; 39; 40; 43; 45; 46]
               ∧ match op with
                 | Mutation.Xor v => (1 ≤ v ≤ 255)%N
                 | Mutation.Subst v => (v ≤ 255)%N
                 end) m)
      (mutated_nodes kv.2))
    (Scenario.conversations s).
Proof. rewrite conversations_eq_assignments. apply assignments_header_bytes. Qed.

(** ** The sweeps over the ClientHello without extensions *)

(** In a list without duplicates made of twelve parts, what is in the
    fourth, sixth or ninth part is in no other. *)
Lemma parts_disjoint (c1 c2 c3 s1 c5 s2 c7 c8 s3 c10 c11 c12 : list string)
    (x : string) :
  NoDup (c1 ++ c2 ++ c3 ++ s1 ++ c5 ++ s2 ++ c7 ++ c8 ++ s3 ++ c10 ++ c11 ++ c12) →
  x ∈ s1 ∨ x ∈ s2 ∨ x ∈ s3 →
  x ∉ c1 ++ c2 ++ c3 ++ [] ++ c5 ++ [] ++ c7 ++ c8 ++ [] ++ c10 ++ c11 ++ c12.
Proof.
  rewrite !NoDup_app. rewrite !elem_of_app.
  intros Hnd Hx Hin. set_solver.
Qed.

(** The name of a sweep under [if not ext] is among the names exactly
    when those sweeps are made. *)
Lemma plain_name_elem_of (s : Setup) (x : string) :
  x ∈ ((λ i, "session ID len fuzz to " +:+ str i) <$> range 1 0x100)
  ∨ x ∈ (((λ i, "cipher suites len fuzz to " +:+ str (N.lxor 4 i)) <$> range 1 0x100)
         ++ (i ← [1; 2; 4; 8; 16; 128; 254; 255]%N;
             (λ j, "cipher suites len fuzz to " +:+ str (N.shiftl i 8 + j))
               <$> range 0 0x100))
  ∨ x ∈ ((λ i, "compression methods len fuzz to " +:+ str (N.lxor 1 i))
           <$> range 1 0x100) →
  x ∈ Scenario.names s ↔ Scenario.not_ext s = true.
Proof.
  intros Hx. rewrite names_names_with.
  destruct (Scenario.not_ext s).
  - split; [reflexivity|]. intros _.
    unfold names_with. rewrite !elem_of_app.
    destruct Hx as [Hx|[Hx|Hx]].
    + do 3 right. left. exact Hx.
    + do 5 right. left. apply elem_of_app. exact Hx.
    + do 8 right. left. exact Hx.
  - split; [|discriminate]. intros Hin. exfalso.
    eapply elem_of_sublist in Hin;
      [|exact (names_with_sublist false false _ _ (λ H, H))].
    pose proof NoDup_all_names as Hnd.
    unfold names_with in Hin, Hnd.
    exact (parts_disjoint _ _ _ _ _ _ _ _ _ _ _ _ x Hnd Hx Hin).
Qed.

(** [ext] is empty exactly when neither flag is set. *)
Lemma not_ext_flags (s : Setup) :
  Scenario.not_ext s = true ↔ dhe s = false ∧ ems s = false.
Proof.
  revert s. apply setup_cases; intros h p c; cbn [dhe ems];
    (split; [intros Hn|intros [Hd He]]);
    first [discriminate | reflexivity | split; reflexivity].
Qed.

(** X14. The three one-byte sweeps over the ClientHello without
    extensions are made only when the script sends no extension of its
    own: for every value [i] from 1 to 255, the probes named
    "session ID len fuzz to i", "cipher suites len fuzz to 4^i" and
    "compression methods len fuzz to 1^i" are in the population exactly
    when neither dhe nor ems is set. *)
Theorem extensionless_sweeps_need_no_flags (s : Setup) (i : N) :
  (1 ≤ i ≤ 255)%N →
  (("session ID len fuzz to " +:+ str i)
     ∈ Dict.keys (Scenario.conversations s)
   ↔ dhe s = false ∧ ems s = false)
  ∧ (("cipher suites len fuzz to " +:+ str (N.lxor 4 i))
       ∈ Dict.keys (Scenario.conversations s)
     ↔ dhe s = false ∧ ems s = false)
  ∧ (("compression methods len fuzz to " +:+ str (N.lxor 1 i))
       ∈ Dict.keys (Scenario.conversations s)
     ↔ dhe s = false ∧ ems s = false).
Proof.
  intros Hi. assert (Hin : i ∈ range 1 256) by (apply elem_of_range; lia).
  rewrite !elem_of_keys_conversations, !has_name_elem_of.
  split_and!;
    (etransitivity; [apply plain_name_elem_of|apply not_ext_flags]).
  - left. apply list_elem_of_fmap. exists i. split; [reflexivity|exact Hin].
  - right; left. apply elem_of_app. left.
    apply list_elem_of_fmap. exists i. split; [reflexivity|exact Hin].
  - right; right. apply list_elem_of_fmap. exists i. split; [reflexivity|exact Hin].
Qed.

Lemma extensionless_sweeps_need_no_flags_witness :
  ("session ID len fuzz to " +:+ str 7)
    ∉ Dict.keys (Scenario.conversations (mkSetup "localhost" 4433 [49171%Z] true false)).
Proof.
  intros Hin.
  apply (extensionless_sweeps_need_no_flags
           (mkSetup "localhost" 4433 [49171%Z] true false) 7) in Hin; [|lia].
  destruct Hin as [Hd _]. discriminate Hd.
Defined.

(** ** The exit status of every run *)

Section ExitStatus.
Context `{Platform}.

(** How the loop over the options can end: only [--help] leaves through
    [sys.exit], and unless it printed the usage message the state is the
    one before. *)
Lemma handle_options_outcome (opts : list (string * string)) (o : Opt.t)
    (st : HState) :
  match handle_options opts o st with
  | (Returned _, st') => st' = st
  | (Raised _, st') => st' = st
  | (Exited c, st') =>
      c = 0%Z ∧ ∃ lines, st' = with_stdout (stdout st ++ lines) st
  end.
Proof.
  revert o. induction opts as [|[opt arg] opts IH]; intros o.
  - reflexivity.
  - cbn [handle_options]. unfold mbind, M_bind.
    pose proof (handle_option_outcome o opt arg st) as Hstep.
    destruct (handle_option o opt arg st) as [[o'|e|c] st1]; cbv beta iota.
    + subst st1. apply IH.
    + apply Hstep.
    + destruct Hstep as (-> & _ & lines & -> & _).
      split; [reflexivity|]. exists lines. reflexivity.
Qed.

(** With a negative limit the run stops at [random.sample]. *)
Lemma run_conversations_negative (o : Opt.t) (run_only : option (gset string))
    (s : Setup) (st : HState) :
  (Opt.num_limit o < 0)%Z →
  run_conversations o run_only (Scenario.conversations s) st
  = (Raised (ValueError "Sample larger than population or is negative"),
     mkHState 0 0 0 0 [] [] (stdout st) (world st)).
Proof.
  intros Hn. unfold run_conversations.
  unfold mbind at 1, M_bind at 1. unfold init_counters at 1, modify at 1.
  unfold mbind at 1, M_bind at 1.
  unfold plan, getitem. rewrite get_sanity.
  pose proof (select_negative o run_only (Scenario.conversations s) Hn) as Hk.
  destruct (select o run_only (Scenario.conversations s)) as [num_limit regular_tests].
  cbn [fst snd] in Hk.
  unfold mbind, M_bind, mret, M_ret. rewrite sample_negative by exact Hk.
  reflexivity.
Qed.

(** [main] is the loop over the options followed by the rest. *)
Lemma main_unfold (opts : list (string * string)) (args : list string)
    (st : HState) :
  main opts args st
  = match handle_options opts Opt.defaults st with
    | (Returned o, st1) =>
        run_conversations o
          match args with
          | [] => None
          | _ => Some (list_to_set args)
          end
          (Scenario.conversations (setup_of o)) st1
    | (Raised e, st1) => (Raised e, st1)
    | (Exited c, st1) => (Exited c, st1)
    end.
Proof.
  unfold main. unfold mbind at 1, M_bind at 1.
  destruct (handle_options opts Opt.defaults st) as [[o|e|c] st1]; reflexivity.
Qed.

End ExitStatus.

(** C2. The exit status of every run of [main] is 1 or 0. If an option
    is rejected, the run dies of the exception with status 1, nothing
    printed, nothing run, no counter changed. If [--help] is met, it
    leaves with status 0. If the options are accepted and the limit is
    negative, it dies at [random.sample] with status 1 while bad and
    xpass are zero and no conversation has been run. If the options are
    accepted and the limit is not negative, the loop runs to its end, and
    the status is 1 exactly when bad or xpass is not zero, that is when
    some executed test was classified FAIL or XPASS, and 0 exactly when
    every executed test was classified PASS or XFAIL. *)
Theorem exit_status_reflects_failures `{Platform} (opts : list (string * string))
    (args : list string) (st : HState) :
  let r := (main opts args st).1 in
  let st' := (main opts args st).2 in
  (exit_status r = Some 1%Z ∨ exit_status r = Some 0%Z)
  ∧ match (handle_options opts Opt.defaults st).1 with
    | Raised e => r = Raised e ∧ exit_status r = Some 1%Z ∧ st' = st
    | Exited c =>
        r = Exited 0%Z ∧ exit_status r = Some 0%Z ∧ world st' = world st
        ∧ bad st' = bad st ∧ xpass st' = xpass st
    | Returned o =>
        ((Opt.num_limit o < 0)%Z →
           exit_status r = Some 1%Z ∧ bad st' = 0 ∧ xpass st' = 0
           ∧ stdout st' = stdout st ∧ world st' = world st)
        ∧ ((0 ≤ Opt.num_limit o)%Z →
           ∃ sanity_tests sampled_tests ordered_tests,
             plan o
               match args with
               | [] => None
               | _ => Some (list_to_set args)
               end
               (Scenario.conversations (setup_of o))
               (mkHState 0 0 0 0 [] [] (stdout st) (world st))
             = (Returned (sanity_tests, sampled_tests, ordered_tests),
                mkHState 0 0 0 0 [] [] (stdout st) (world st))
             ∧ (exit_status r = Some 1%Z ↔ bad st' ≠ 0 ∨ xpass st' ≠ 0)
             ∧ (exit_status r = Some 1%Z
                ↔ ∃ res,
                    res ∈ run_results (Opt.expected_failures o) ordered_tests
                            (world st)
                    ∧ (outcome res = FAIL ∨ outcome res = XPASS))
             ∧ (exit_status r = Some 0%Z
                ↔ ∀ res,
                    res ∈ run_results (Opt.expected_failures o) ordered_tests
                            (world st)
                    → outcome res = PASS ∨ outcome res = XFAIL))
    end.
Proof.
  cbv zeta. rewrite main_unfold.
  pose proof (handle_options_outcome opts Opt.defaults st) as Hopts.
  destruct (handle_options opts Opt.defaults st) as [[o|e|c] st1];
    cbn [fst snd] in *.
  - subst st1.
    destruct (Z_lt_le_dec (Opt.num_limit o) 0) as [Hneg|Hpos].
    + rewrite (run_conversations_negative o _ (setup_of o) st Hneg).
      cbn [fst snd exit_status bad xpass stdout world].
      split; [left; reflexivity|]. split; [|intros Hc; exfalso; lia].
      intros _. split_and!; reflexivity.
    + destruct (run_conversations_exit_status o
                  match args with
                  | [] => None
                  | _ => Some (list_to_set args)
                  end (setup_of o) st Hpos)
        as (sanity_tests & sampled & ordered & r & st' & Hplan & Hrun
            & Hstatus & Hiff & Hsome & Hall).
      rewrite Hrun. cbn [fst snd].
      split; [exact Hstatus|]. split; [intros Hc; exfalso; lia|].
      intros _. exists sanity_tests, sampled, ordered.
      split; [exact Hplan|]. split; [exact Hiff|]. split; [exact Hsome|exact Hall].
  - subst st1. cbn [exit_status].
    split; [left; reflexivity|]. split_and!; reflexivity.
  - destruct Hopts as (-> & lines & ->). cbn [exit_status].
    split; [right; reflexivity|]. split_and!; reflexivity.
Qed.

Lemma exit_status_reflects_failures_witness :
  let r :=
    (main (H := Runner.scripted (λ _, []) (λ _, [])) [] []
       (Runner.start (λ _, []) (λ _, []))).1 in
  let st' :=
    (main (H := Runner.scripted (λ _, []) (λ _, [])) [] []
       (Runner.start (λ _, []) (λ _, []))).2 in
  (exit_status r = Some 1%Z ∨ exit_status r = Some 0%Z)
  ∧ (exit_status r = Some 1%Z ↔ bad st' ≠ 0 ∨ xpass st' ≠ 0).
Proof.
  cbv zeta.
  destruct (exit_status_reflects_failures (H := Runner.scripted (λ _, []) (λ _, []))
              [] [] (Runner.start (λ _, []) (λ _, [])))
    as (Hstatus & _ & Hloop).
  split; [exact Hstatus|].
  destruct Hloop as (sanity_tests & sampled & ordered & _ & Hiff & _).
  - cbn [Opt.num_limit Opt.defaults]. lia.
  - exact Hiff.
Defined.

(** [-X message] with no [-x] before it: the run dies of the ValueError
    of line 82, so the process ends with status 1, though no
    conversation has been run and bad and xpass are zero. *)
Lemma rejected_option_exits_1_without_failures :
  let run :=
    main (H := Runner.scripted (λ _, []) (λ _, []))
      [("-X", "Unexpected")] []
      (Runner.start (λ _, []) (λ _, [])) in
  run.1 = Raised (ValueError "-x has to be specified before -X")
  ∧ exit_status run.1 = Some 1%Z
  ∧ ¬ (bad run.2 ≠ 0 ∨ xpass run.2 ≠ 0)
  ∧ stdout run.2 = [].
Proof.
  cbv zeta. rewrite main_unfold.
  assert (Hopts :
    handle_options (H := Runner.scripted (λ _, []) (λ _, []))
      [("-X", "Unexpected")] Opt.defaults (Runner.start (λ _, []) (λ _, []))
    = (Raised (ValueError "-x has to be specified before -X"),
       Runner.start (λ _, []) (λ _, []))) by reflexivity.
  rewrite Hopts. cbn [fst snd exit_status].
  split; [reflexivity|]. split; [reflexivity|].
  split; [|reflexivity]. intros [Hc|Hc]; apply Hc; reflexivity.
Qed.
